(** * Disaster-response ETL pipeline: [data/process_data.py]

    A shallow embedding of the three stages of the script

      - [load_data]  : read two CSV tables and inner-join them on [id];
      - [clean_data] : expand the [categories] text column into one
                       numeric column per category and drop duplicate rows;
      - [save_data]  : write the frame to the SQLite table
                       [disaster_messages], replacing what was there;

    together with the properties of these stages.

    The script is written against pandas.  Each pandas call it makes is
    embedded as a function of the same name, following the documented
    behaviour of the call:

      - a text column holds Python strings or a missing marker;
      - a frame is a list of rows under the default [RangeIndex]; row
        labels are not tracked beyond that, since the only consumer writes
        with [index=False];
      - Python exceptions are values of [exception]; a computation that can
        raise lives in [result];
      - a Python string is a [string] of bytes (its UTF-8 encoding).  The
        script only splits on the ASCII characters [;] and [-] and asks
        whether the last character is an ASCII digit; a byte of a
        multi-byte character is none of these, so this reading and the
        code-point reading agree on every result. *)

From Stdlib Require Import ZArith Ascii String.
From stdpp Require Import base option list strings gmap.

Local Open Scope Z_scope.
Set Warnings "-clear-no-such-hyp".

(** ** Exceptions and the error monad *)

Inductive exception : Set :=
  | IndexError        (* positional indexer out of bounds *)
  | AttributeError    (* attribute lookup on an object that lacks it *)
  | ValueError        (* [pd.to_numeric]: unable to parse string *)
  | FileNotFoundError (* [pd.read_csv] on a missing path *)
  | OperationalError  (* the database engine refused a statement *)
  | ArgumentError.    (* SQLAlchemy refused the description of a table; a
                         repeated column name raises its subclass
                         [DuplicateColumnError] *)

Inductive result (A : Type) : Type :=
  | Ok (a : A)
  | Raise (e : exception).
Arguments Ok {A} a.
Arguments Raise {A} e.

#[global] Instance exception_eq_dec : EqDecision exception.
Proof. solve_decision. Defined.

#[global] Instance result_ret : MRet result := λ A a, Ok a.
#[global] Instance result_bind : MBind result := λ A B f m,
  match m with
  | Ok a => f a
  | Raise e => Raise e
  end.

(** ** Python strings *)

(** [s.split(sep)] for a one-character separator: the pieces between the
    occurrences of [sep], empty pieces included; never the empty list. *)
Fixpoint split (sep : ascii) (s : string) : list string :=
  match s with
  | EmptyString => [EmptyString]
  | String c s' =>
      if decide (c = sep) then EmptyString :: split sep s'
      else match split sep s' with
           | t :: ts => String c t :: ts
           | [] => [String c EmptyString]
           end
  end.

(** [s[-1]] where it exists. *)
Fixpoint last_char (s : string) : option ascii :=
  match s with
  | EmptyString => None
  | String c EmptyString => Some c
  | String _ s' => last_char s'
  end.

Definition is_digit (c : ascii) : bool :=
  bool_decide (48 ≤ nat_of_ascii c ≤ 57)%nat.

Definition digit_value (c : ascii) : Z := Z.of_nat (nat_of_ascii c) - 48.

(** ** Cells of a text column *)

(** An element of a text column: a Python string, or one of the two
    missing markers pandas uses ([None] for padding, [nan] for an empty
    CSV field). *)
Inductive obj : Set :=
  | Str (s : string)
  | PyNone
  | NaN.

#[global] Instance obj_eq_dec : EqDecision obj.
Proof. solve_decision. Defined.

(** How [astype(str)] treats a missing cell.  With text stored in
    [object] columns (pandas up to 2.x) the cast applies [str()] to every
    element, so [None] becomes the text [None] and [nan] the text [nan].
    With the dedicated [str] dtype (the default from pandas 3) missing
    cells stay missing. *)
Inductive text_dtype : Set :=
  | ObjectDtype
  | StrDtype.

Definition astype_str (d : text_dtype) (o : obj) : obj :=
  match o, d with
  | Str s, _ => Str s
  | PyNone, ObjectDtype => Str "None"
  | NaN, ObjectDtype => Str "nan"
  | _, StrDtype => NaN
  end.

(** [.str[-1]] on one cell: the last character, or missing when the cell is
    missing or the string is empty. *)
Definition str_get_last (o : obj) : option ascii :=
  match o with
  | Str s => last_char s
  | _ => None
  end.

(** [pd.to_numeric] on one cell of a column of one-character strings: a
    missing cell stays missing, an ASCII digit is read as an integer, any
    other character raises. *)
Definition to_numeric_cell (x : option ascii) : result (option Z) :=
  match x with
  | None => Ok None
  | Some c => if is_digit c then Ok (Some (digit_value c)) else Raise ValueError
  end.

Definition to_numeric (col : list (option ascii)) : result (list (option Z)) :=
  mapM to_numeric_cell col.

(** ** Tables *)

(** A row of the messages file. An empty CSV field is read as missing. *)
Record message_row : Set := MessageRow {
  m_id : Z;
  m_message : option string;
  m_original : option string;
  m_genre : option string
}.

(** A row of the categories file. *)
Record category_row : Set := CategoryRow {
  c_id : Z;
  c_categories : option string
}.

(** A row of the merged frame: columns [id], [message], [original],
    [genre], [categories]. *)
Record joined_row : Set := JoinedRow {
  j_id : Z;
  j_message : option string;
  j_original : option string;
  j_genre : option string;
  j_categories : option string
}.

(** A row of the cleaned frame: the columns of the merged frame without
    [categories], followed by one numeric cell per category column.  A
    numeric cell is the value of a digit, or missing.  ([pd.to_numeric]
    gives a column without missing cells the dtype [int64] and a column
    with missing cells [float64]; both hold the values 0 to 9 exactly, and
    the dtype is not tracked.) *)
Record cleaned_row : Set := CleanedRow {
  r_id : Z;
  r_message : option string;
  r_original : option string;
  r_genre : option string;
  r_values : list (option Z)
}.

(** The cleaned frame with its column labels. *)
Record cleaned_frame : Set := CleanedFrame {
  columns : list string;
  rows : list cleaned_row
}.

#[global] Instance message_row_eq_dec : EqDecision message_row.
Proof. solve_decision. Defined.
#[global] Instance category_row_eq_dec : EqDecision category_row.
Proof. solve_decision. Defined.
#[global] Instance joined_row_eq_dec : EqDecision joined_row.
Proof. solve_decision. Defined.
#[global] Instance cleaned_row_eq_dec : EqDecision cleaned_row.
Proof. solve_decision. Defined.

(** ** Loader *)

(** [messages.merge(categories, how='inner', on='id')]: one output row per
    pair of a left row and a right row with the same [id].  The rows are
    listed in the order of the left keys, as pandas documents for an inner
    join; the properties of the join below do not depend on the order. *)
Definition merge (messages : list message_row) (categories : list category_row)
  : list joined_row :=
  m ← messages;
  (λ c, JoinedRow (m_id m) (m_message m) (m_original m) (m_genre m)
                  (c_categories c))
    <$> filter (λ c, c_id c = m_id m) categories.

Section loader.
(** The two CSV files as [pd.read_csv] parses them: what is found at a
    path, if anything. *)
Variable messages_csv : string → option (list message_row).
Variable categories_csv : string → option (list category_row).

Definition read_csv {A} (files : string → option A) (filepath : string)
  : result A :=
  match files filepath with
  | Some table => Ok table
  | None => Raise FileNotFoundError
  end.

Definition load_data (messages_filepath categories_filepath : string)
  : result (list joined_row) :=
  messages ← read_csv messages_csv messages_filepath;
  categories ← read_csv categories_csv categories_filepath;
  let df := merge messages categories in
  Ok df.
End loader.

(** ** Cleaner *)

(** [Series.str.split(sep, expand=True)]: every string is split, a missing
    value stays one missing cell; the frame is as wide as the longest row;
    a missing row is repeated to that width and a shorter row is padded on
    the right with [None]. *)
Definition str_split_expand (sep : ascii) (col : list (option string))
  : list (list obj) :=
  let result :=
    (λ x, match x with
          | Some s => Str <$> split sep s
          | None => [NaN]
          end) <$> col in
  let max_len := max_list (length <$> result) in
  let result :=
    (λ x, match x with
          | NaN :: _ => replicate max_len NaN
          | _ => x
          end) <$> result in
  (λ x, x ++ replicate (max_len - length x) PyNone) <$> result.

(** [frame.iloc[i]] *)
Definition iloc {A} (i : nat) (frame : list A) : result A :=
  match frame !! i with
  | Some row => Ok row
  | None => Raise IndexError
  end.

(** [col.split('-')[0]] on a cell of row 0; only a string has [split]. *)
Definition colname (col : obj) : result string :=
  match col with
  | Str s => Ok (default EmptyString (head (split "-" s)))
  | _ => Raise AttributeError
  end.

(** The cells at position [j] of every list of [frame]: a column of a frame
    given by its rows, a row of a frame given by its columns.  The filler
    is never reached in a rectangular frame. *)
Definition cells_at {A} (filler : A) (j : nat) (frame : list (list A)) : list A :=
  (λ cells, default filler (cells !! j)) <$> frame.

(** One turn of the loop [for column in categories].  With a label that
    occurs once, [categories[column]] is the column at that position: it is
    cast to text, cut to its last character and parsed.  With a repeated
    label [categories[column]] is a frame, which has no [.str] accessor. *)
Definition convert_column (d : text_dtype) (category_colnames : list string)
    (categories : list (list obj)) (j : nat) (column : string)
  : result (list (option Z)) :=
  if decide (length (filter (λ c, c = column) category_colnames) = 1%nat) then
    let cast := astype_str d <$> cells_at PyNone j categories in
    to_numeric (str_get_last <$> cast)
  else Raise AttributeError.

(** [df.drop('categories', axis=1)] *)
Definition drop_categories (r : joined_row) : message_row :=
  MessageRow (j_id r) (j_message r) (j_original r) (j_genre r).

(** [pd.concat([df, categories], axis=1)] for two frames over the same
    [RangeIndex]; [categories] is given by its columns. *)
Definition concat (df : list message_row) (categories : list (list (option Z)))
  : list cleaned_row :=
  imap (λ i r, CleanedRow (m_id r) (m_message r) (m_original r) (m_genre r)
                 (cells_at None i categories)) df.

(** [frame.duplicated()] with the default [keep='first']: a row is marked
    when an equal row stands before it.  [seen] holds the rows passed so
    far.  Missing cells compare equal to each other. *)
Fixpoint duplicated_from {A} `{EqDecision A} (seen : list A) (frame : list A)
  : list bool :=
  match frame with
  | [] => []
  | r :: frame' => bool_decide (r ∈ seen) :: duplicated_from (r :: seen) frame'
  end.

Definition duplicated {A} `{EqDecision A} (frame : list A) : list bool :=
  duplicated_from [] frame.

(** [frame[~mask]]: the rows whose mark is [False], in their order. *)
Definition unmarked {A} (frame : list A) (mask : list bool) : list A :=
  fst <$> filter (λ p, snd p = false) (zip frame mask).

(** [frame.drop_duplicates()] is [frame[~frame.duplicated()]]. *)
Definition drop_duplicates {A} `{EqDecision A} (frame : list A) : list A :=
  unmarked frame (duplicated frame).

(** The labels of the columns that [drop('categories')] leaves. *)
Definition message_columns : list string :=
  ["id"; "message"; "original"; "genre"]%string.

(** The first two statements of [clean_data]: the split frame and the
    names read off its first row. *)
Definition split_categories (df : list joined_row) : list (list obj) :=
  str_split_expand ";" (j_categories <$> df).

Definition derive_colnames (categories : list (list obj)) : result (list string) :=
  row ← iloc 0 categories;
  mapM colname row.

Definition clean_data (d : text_dtype) (df : list joined_row)
  : result cleaned_frame :=
  let categories := split_categories df in
  category_colnames ← derive_colnames categories;
  converted ← mapM (λ p, convert_column d category_colnames categories p.1 p.2)
                   (imap pair category_colnames);
  let df' := drop_categories <$> df in
  let df' := concat df' converted in
  let df' := drop_duplicates df' in
  Ok (CleanedFrame (message_columns ++ category_colnames) df').

(** ** Persister *)

(** A value as the database stores it. *)
Inductive scalar : Set :=
  | SInt (z : Z)
  | SText (s : string)
  | SNull.

(** A frame as [to_sql] receives it: row labels, column labels, rows. *)
Record DataFrame : Set := mkDataFrame {
  df_index : list Z;
  df_columns : list string;
  df_values : list (list scalar)
}.

(** A table of the database. *)
Record relation : Set := Relation {
  rel_columns : list string;
  rel_rows : list (list scalar)
}.

#[global] Instance scalar_eq_dec : EqDecision scalar.
Proof. solve_decision. Defined.
#[global] Instance relation_eq_dec : EqDecision relation.
Proof. solve_decision. Defined.

(** The [if_exists] argument of [to_sql]. *)
Inductive if_exists_mode : Set :=
  | IfExistsFail
  | IfExistsReplace
  | IfExistsAppend.

(** What [to_sql] sends: with [index=True] the row labels go first, as a
    column named [index], or [level_0] when the frame has a column
    [index] already. *)
Definition written_relation (df : DataFrame) (index : bool) : relation :=
  if index then
    Relation ((if decide ("index"%string ∈ df_columns df)
               then "level_0"%string else "index"%string) :: df_columns df)
             (zip_with (λ i r, SInt i :: r) (df_index df) (df_values df))
  else Relation (df_columns df) (df_values df).

(** An integer that fits the signed 64-bit integers of pandas and SQLite.
    A column with a larger integer has the dtype [uint64]. *)
Definition int64_cell (x : scalar) : bool :=
  match x with
  | SInt z => bool_decide (- 2 ^ 63 ≤ z < 2 ^ 63)
  | _ => true
  end.

(** What is refused while the table is described, before any statement is
    sent to the database: pandas raises [ValueError] on a [uint64] column,
    and SQLAlchemy raises [ArgumentError] on a blank column name and its
    subclass [DuplicateColumnError] on a repeated one. *)
Definition table_setup_error (new : relation) : option exception :=
  if negb (forallb (forallb int64_cell) (rel_rows new)) then Some ValueError
  else if bool_decide (EmptyString ∈ rel_columns new ∨ ¬ NoDup (rel_columns new))
  then Some ArgumentError
  else None.

(** SQLite compares column names without regard to the case of ASCII
    letters. *)
Definition ascii_lower (c : ascii) : ascii :=
  if bool_decide (65 ≤ nat_of_ascii c ≤ 90)%nat
  then ascii_of_nat (nat_of_ascii c + 32) else c.

Fixpoint casefold (s : string) : string :=
  match s with
  | EmptyString => EmptyString
  | String c s' => String (ascii_lower c) (casefold s')
  end.

(** The largest number of columns of a table of SQLite. *)
Definition sqlite_max_column : nat := 2000.

(** What SQLite refuses in [CREATE TABLE]: a table without columns, with
    more than [sqlite_max_column] columns, or with two columns whose names
    differ at most in the case of their letters. *)
Definition create_table_error (new : relation) : option exception :=
  if bool_decide ((0 < length (rel_columns new) ≤ sqlite_max_column)%nat ∧
                  NoDup (casefold <$> rel_columns new))
  then None else Some OperationalError.

(** [df.to_sql(name, con, index=..., if_exists=...)] on a database given
    as a map from table names to tables.  The table is described first;
    then an existing table is refused, dropped or appended to, as
    [if_exists] says; then the table is created and filled.  Failures of
    the file system (an unwritable or corrupt file, a full disk) are
    outside this model. *)
Definition to_sql (df : DataFrame) (name : string) (con : gmap string relation)
    (index : bool) (if_exists : if_exists_mode)
  : result (gmap string relation) :=
  let new := written_relation df index in
  match table_setup_error new with
  | Some e => Raise e
  | None =>
      match con !! name, if_exists with
      | Some _, IfExistsFail => Raise ValueError
      | Some old, IfExistsAppend =>
          if decide (rel_columns old = rel_columns new) then
            Ok (<[name := Relation (rel_columns old) (rel_rows old ++ rel_rows new)]> con)
          else Raise OperationalError
      | _, _ =>
          match create_table_error new with
          | Some e => Raise e
          | None => Ok (<[name := new]> con)
          end
      end
  end.

(** [create_engine(f'sqlite:///{database_filename}')]: the database in that
    file, an empty one when the file does not exist yet. *)
Definition create_engine (files : gmap string (gmap string relation))
    (database_filename : string) : gmap string relation :=
  default ∅ (files !! database_filename).

(** [save_data], with the files of the machine passed in and out. *)
Definition save_data (df : DataFrame) (database_filename : string)
    (files : gmap string (gmap string relation))
  : result (gmap string (gmap string relation)) :=
  let engine := create_engine files database_filename in
  db ← to_sql df "disaster_messages" engine false IfExistsReplace;
  Ok (<[database_filename := db]> files).

(** ** Notions used in the statements *)

(** The number of cells a value of the [categories] column splits into. *)
Definition token_count (sep : ascii) (x : option string) : nat :=
  match x with
  | Some s => length (split sep s)
  | None => 1
  end.

(** The width of the split frame: the largest token count. *)
Definition frame_width (sep : ascii) (col : list (option string)) : nat :=
  max_list (token_count sep <$> col).

(** A row of the split frame of width [w]. *)
Definition expand_row (sep : ascii) (w : nat) (x : option string) : list obj :=
  match x with
  | Some s => (Str <$> split sep s) ++ replicate (w - length (split sep s)) PyNone
  | None => replicate w NaN
  end.

(** The column names a [categories] string gives when it stands in row 0. *)
Definition colnames_of (s : string) : list string :=
  (λ t, default EmptyString (head (split "-" t))) <$> split ";" s.

(** What the loop does to one cell, and the value it leaves there. *)
Definition convert_cell (d : text_dtype) (c : obj) : result (option Z) :=
  to_numeric_cell (str_get_last (astype_str d c)).

Definition value_of (d : text_dtype) (c : obj) : option Z :=
  digit_value <$> str_get_last (astype_str d c).

(** The frame before duplicates are dropped: row [i] of the input with its
    [categories] replaced by the values of its cells. *)
Definition expanded (d : text_dtype) (df : list joined_row) : list cleaned_row :=
  zip_with (λ r cells, CleanedRow (j_id r) (j_message r) (j_original r) (j_genre r)
                         (value_of d <$> cells))
           df (split_categories df).

(** The number of rows of a table with a given [id]. *)
Definition count_id {A} (key : A → Z) (k : Z) (table : list A) : nat :=
  length (filter (λ r, key r = k) table).

(** The frame of a cleaned row: its cells outside the category columns. *)
Definition message_of (r : cleaned_row) : message_row :=
  MessageRow (r_id r) (r_message r) (r_original r) (r_genre r).

(** A cell whose text cast ends in a character that is not a digit. *)
Definition cell_unparsable (d : text_dtype) (c : obj) : bool :=
  match str_get_last (astype_str d c) with
  | Some ch => negb (is_digit ch)
  | None => false
  end.

(** Some cell of the split frame cannot be parsed. *)
Definition some_cell_unparsable (d : text_dtype) (df : list joined_row) : bool :=
  existsb (existsb (cell_unparsable d)) (split_categories df).

(** The tokens written in the [categories] column, and whether one of
    them ends in a character that is not a digit. *)
Definition tokens_of (df : list joined_row) : list string :=
  r ← df; match j_categories r with Some s => split ";" s | None => [] end.

Definition some_token_unparsable (df : list joined_row) : bool :=
  existsb (cell_unparsable ObjectDtype) (Str <$> tokens_of df).

(** ** Sample tables *)

Definition help_row (i : Z) (categories : string) : joined_row :=
  JoinedRow i (Some "help"%string) (Some "aide"%string) (Some "direct"%string)
            (Some categories).

Definition help_cleaned (i : Z) (values : list (option Z)) : cleaned_row :=
  CleanedRow i (Some "help"%string) (Some "aide"%string) (Some "direct"%string)
             values.

(** One row, with a value outside 0 and 1. *)
Definition table_related_2 : list joined_row :=
  [help_row 1 "related-2;request-1"].

(** Row 1 has more tokens than row 0. *)
Definition table_longer_row : list joined_row :=
  [help_row 1 "a-1"; help_row 2 "a-1;b-0"].

(** The same, with a letter where a digit is expected. *)
Definition table_longer_letter : list joined_row :=
  [help_row 1 "a-1"; help_row 2 "a-x;b-1"].

(** Row 1 has fewer tokens than row 0. *)
Definition table_shorter_row : list joined_row :=
  [help_row 1 "a-1;b-0"; help_row 2 "a-1"].

(** Two different rows that differ in [categories] only, by the category
    name. *)
Definition table_same_values : list joined_row :=
  [help_row 1 "a-1"; help_row 1 "b-1"].

(** The same row 0, alone and followed by a longer row. *)
Definition table_row0_alone : list joined_row := [help_row 1 "a-1"].

(** A duplicated row and a row with a letter where a digit is expected. *)
Definition table_duplicates : list joined_row :=
  [help_row 1 "a-1;b-0"; help_row 1 "a-1;b-0"; help_row 2 "a-0;b-7"].

Definition table_letter : list joined_row :=
  [help_row 1 "a-1;b-0"; help_row 2 "a-1;b-x"].

(** What [clean_data] returns on [table_duplicates]. *)
Definition cleaned_duplicates : cleaned_frame :=
  CleanedFrame ["id"; "message"; "original"; "genre"; "a"; "b"]%string
               [help_cleaned 1 [Some 1; Some 0]; help_cleaned 2 [Some 0; Some 7]].

(** Two CSV files on disk. *)
Definition sample_messages : list message_row :=
  [MessageRow 1 (Some "help"%string) None (Some "direct"%string);
   MessageRow 2 (Some "water"%string) None (Some "news"%string);
   MessageRow 1 (Some "help again"%string) None (Some "direct"%string)].

Definition sample_categories : list category_row :=
  [CategoryRow 1 (Some "related-1;request-0"%string);
   CategoryRow 3 (Some "related-0;request-0"%string);
   CategoryRow 1 (Some "related-1;request-1"%string)].

Definition sample_messages_csv (path : string) : option (list message_row) :=
  if decide (path = "messages.csv"%string) then Some sample_messages else None.

Definition sample_categories_csv (path : string) : option (list category_row) :=
  if decide (path = "categories.csv"%string) then Some sample_categories else None.

(** ** Orchestration *)

(** The frame [clean_data] returns keeps, for every row that survives
    [drop_duplicates], the label the row had in the merged frame: its
    position. *)
Definition cleaned_index (d : text_dtype) (df : list joined_row) : list Z :=
  unmarked (Z.of_nat <$> seq 0 (length df)) (duplicated (expanded d df)).

(** The cells of a cleaned row as the database stores them: a missing cell
    is written as [NULL]. *)
Definition text_scalar (x : option string) : scalar :=
  match x with
  | Some s => SText s
  | None => SNull
  end.

Definition number_scalar (x : option Z) : scalar :=
  match x with
  | Some z => SInt z
  | None => SNull
  end.

Definition row_scalars (r : cleaned_row) : list scalar :=
  [SInt (r_id r); text_scalar (r_message r); text_scalar (r_original r);
   text_scalar (r_genre r)] ++ (number_scalar <$> r_values r).

(** The cleaned frame as [to_sql] receives it. *)
Definition to_frame (index : list Z) (cleaned : cleaned_frame) : DataFrame :=
  mkDataFrame index (columns cleaned) (row_scalars <$> rows cleaned).

(** What a run of the script can change: the lines printed so far and the
    database files. *)
Record world : Type := World {
  w_stdout : list string;
  w_files : gmap string (gmap string relation)
}.

(** A statement of [main]: it changes the world and returns or raises.  An
    exception ends the run; what was printed before it stays printed. *)
Definition io (A : Type) : Type := world → world * result A.

#[global] Instance io_ret : MRet io := λ A a w, (w, Ok a).
#[global] Instance io_bind : MBind io := λ A B f m w,
  match m w with
  | (w', Ok a) => f a w'
  | (w', Raise e) => (w', Raise e)
  end.

(** [print(line)] *)
Definition print (line : string) : io unit :=
  λ w, (World (w_stdout w ++ [line]) (w_files w), Ok tt).

(** A call that touches neither the output nor the database files. *)
Definition call {A} (r : result A) : io A := λ w, (w, r).

(** A call that rewrites the database files when it returns.  When it
    raises, the run ends there; the files are reported as they were before
    the call, which is what a refusal before the first statement leaves,
    and what is left of a table whose creation the engine refused is not
    modelled. *)
Definition call_on_files
    (f : gmap string (gmap string relation) → result (gmap string (gmap string relation)))
  : io unit :=
  λ w, match f (w_files w) with
       | Ok files => (World (w_stdout w) files, Ok tt)
       | Raise e => (w, Raise e)
       end.

Definition newline : string := String "010"%char EmptyString.

Definition loading_message (messages_filepath categories_filepath : string) : string :=
  "Loading data..." +:+ newline +:+ "    MESSAGES: " +:+ messages_filepath
  +:+ newline +:+ "    CATEGORIES: " +:+ categories_filepath.

Definition saving_message (database_filepath : string) : string :=
  "Saving data..." +:+ newline +:+ "    DATABASE: " +:+ database_filepath.

Definition usage_message : string :=
  "Please provide the filepaths of the messages and categories "
  +:+ "datasets as the first and second argument respectively, as "
  +:+ "well as the filepath of the database to save the cleaned data "
  +:+ "to as the third argument. " +:+ newline +:+ newline
  +:+ "Example: python process_data.py "
  +:+ "disaster_messages.csv disaster_categories.csv "
  +:+ "DisasterResponse.db".

(** [main], with [sys.argv] as an argument. *)
Definition main (d : text_dtype)
    (messages_csv : string → option (list message_row))
    (categories_csv : string → option (list category_row))
    (argv : list string) : io unit :=
  match argv with
  | [_; messages_filepath; categories_filepath; database_filepath] =>
      print (loading_message messages_filepath categories_filepath);;
      df ← call (load_data messages_csv categories_csv
                   messages_filepath categories_filepath);
      print "Cleaning data...";;
      cleaned ← call (clean_data d df);
      print (saving_message database_filepath);;
      call_on_files (save_data (to_frame (cleaned_index d df) cleaned)
                       database_filepath);;
      print "Cleaned data saved to database!"
  | _ => print usage_message
  end.

(** Whether a character occurs in a string. *)
Fixpoint string_mem (c : ascii) (s : string) : bool :=
  match s with
  | EmptyString => false
  | String c' s' => bool_decide (c' = c) || string_mem c s'
  end.

(** The last character of every token of a [categories] value. *)
Definition last_chars (x : option string) : option (list (option ascii)) :=
  (λ s, last_char <$> split ";" s) <$> x.

(** A category named like a column of the messages table. *)
Definition table_category_id : list joined_row := [help_row 1 "id-1;b-0"].

Definition cleaned_category_id : cleaned_frame :=
  CleanedFrame ["id"; "message"; "original"; "genre"; "id"; "b"]%string
               [help_cleaned 1 [Some 1; Some 0]].


(** A run on the two sample files. *)
Definition sample_argv : list string :=
  ["process_data.py"; "messages.csv"; "categories.csv"; "DisasterResponse.db"]%string.

Definition sample_cleaned : cleaned_frame :=
  CleanedFrame ["id"; "message"; "original"; "genre"; "related"; "request"]%string
    [CleanedRow 1 (Some "help"%string) None (Some "direct"%string) [Some 1; Some 0];
     CleanedRow 1 (Some "help"%string) None (Some "direct"%string) [Some 1; Some 1];
     CleanedRow 1 (Some "help again"%string) None (Some "direct"%string)
                [Some 1; Some 0];
     CleanedRow 1 (Some "help again"%string) None (Some "direct"%string)
                [Some 1; Some 1]].

(** Tables in which [id] is a key. *)
Definition keyed_messages : list message_row :=
  [MessageRow 1 (Some "help"%string) None (Some "direct"%string);
   MessageRow 2 (Some "water"%string) None (Some "news"%string)].

Definition keyed_categories : list category_row :=
  [CategoryRow 2 (Some "related-1;request-0"%string);
   CategoryRow 3 (Some "related-0;request-0"%string)].

(** * Properties *)

(** ** The error monad *)

Lemma bind_Ok {A B} (f : A → result B) (m : result A) (b : B) :
  m ≫= f = Ok b ↔ ∃ a, m = Ok a ∧ f a = Ok b.
Proof.
  destruct m as [a|e]; simpl.
  - split; [eauto|]. by intros (? & [= <-] & ?).
  - split; [done|]. by intros (? & ? & ?).
Qed.

Lemma bind_Raise {A B} (f : A → result B) (m : result A) (e : exception) :
  m ≫= f = Raise e ↔ m = Raise e ∨ ∃ a, m = Ok a ∧ f a = Raise e.
Proof.
  destruct m as [a|e']; simpl.
  - split; [eauto|]. intros [?|(? & [= <-] & ?)]; done.
  - split; [intros [= ->]; eauto|]. intros [[= ->]|(? & ? & ?)]; done.
Qed.

Lemma mapM_cons {A B} (f : A → result B) (x : A) (l : list A) :
  mapM f (x :: l) = f x ≫= λ y, mapM f l ≫= λ k, Ok (y :: k).
Proof. done. Qed.

Lemma mapM_Ok {A B} (f : A → result B) (l : list A) (k : list B) :
  mapM f l = Ok k ↔ Forall2 (λ x y, f x = Ok y) l k.
Proof.
  revert k. induction l as [|x l IH]; intros k; simpl.
  - split.
    + intros [= <-]. constructor.
    + by intros ->%Forall2_nil_inv_l.
  - split.
    + intros (y & Hy & (k' & Hk' & [= <-])%bind_Ok)%bind_Ok.
      constructor; [done|]. by apply IH.
    + intros (y & k' & Hy & Hk' & ->)%Forall2_cons_inv_l.
      apply bind_Ok. exists y. split; [done|].
      apply bind_Ok. exists k'. split; [by apply IH|done].
Qed.

Lemma mapM_Raise {A B} (f : A → result B) (l : list A) (e : exception) :
  mapM f l = Raise e ↔
  ∃ l1 x l2, l = l1 ++ x :: l2 ∧ Forall (λ y, ∃ b, f y = Ok b) l1 ∧ f x = Raise e.
Proof.
  induction l as [|x l IH]; simpl.
  - split; [done|]. intros (l1 & ? & ? & Hl & _). by destruct l1.
  - rewrite bind_Raise. split.
    + intros [Hx|(y & Hy & [Hl|(k & _ & [=])]%bind_Raise)].
      * exists [], x, l. by repeat split.
      * apply IH in Hl as (l1 & x' & l2 & -> & Hl1 & Hx').
        exists (x :: l1), x', l2. repeat split; [|done]. constructor; eauto.
    + intros (l1 & x' & l2 & Hl & Hl1 & Hx').
      destruct l1 as [|z l1]; simplify_eq/=; [by left|].
      apply Forall_cons in Hl1 as [[b Hb] Hl1]. right. exists b. split; [done|].
      apply bind_Raise. left. apply IH. eauto 10.
Qed.

(** ** Splitting *)

Lemma split_length_pos sep s : (0 < length (split sep s))%nat.
Proof.
  destruct s as [|c s]; simpl; [lia|].
  case_decide; simpl; [lia|]. destruct (split sep s); simpl; lia.
Qed.

Lemma token_count_pos sep x : (0 < token_count sep x)%nat.
Proof. destruct x; simpl; [apply split_length_pos|lia]. Qed.

Lemma token_count_le_width sep col i x :
  col !! i = Some x → (token_count sep x ≤ frame_width sep col)%nat.
Proof.
  intros Hx. apply max_list_elem_of_le, list_elem_of_fmap.
  exists x. split; [done|]. by eapply list_elem_of_lookup_2.
Qed.

Lemma str_split_expand_rows sep col :
  str_split_expand sep col = expand_row sep (frame_width sep col) <$> col.
Proof.
  unfold str_split_expand, frame_width.
  set (raw := λ x : option string,
         match x with Some s => Str <$> split sep s | None => [NaN] end).
  assert (length <$> (raw <$> col) = token_count sep <$> col) as ->.
  { rewrite <-list_fmap_compose. apply list_fmap_ext. intros _ [s|] _; simpl.
    - by rewrite length_fmap.
    - done. }
  set (w := max_list (token_count sep <$> col)).
  rewrite <-!list_fmap_compose. apply list_fmap_ext. intros _ [s|] _; simpl.
  - destruct (split sep s) as [|t ts]; simpl; by rewrite ?length_fmap.
  - by rewrite length_replicate, Nat.sub_diag, app_nil_r.
Qed.

Lemma expand_row_length sep w x :
  (token_count sep x ≤ w)%nat → length (expand_row sep w x) = w.
Proof.
  destruct x as [s|]; simpl; intros Hw.
  - rewrite length_app, length_fmap, length_replicate. lia.
  - by rewrite length_replicate.
Qed.

Lemma split_categories_lookup df i :
  split_categories df !! i
  = expand_row ";" (frame_width ";" (j_categories <$> df))
      <$> (j_categories <$> df !! i).
Proof.
  unfold split_categories. by rewrite str_split_expand_rows, !list_lookup_fmap.
Qed.

Lemma split_categories_length df : length (split_categories df) = length df.
Proof.
  unfold split_categories. by rewrite str_split_expand_rows, !length_fmap.
Qed.

Lemma split_categories_rect df i cells :
  split_categories df !! i = Some cells →
  length cells = frame_width ";" (j_categories <$> df).
Proof.
  rewrite split_categories_lookup. intros Hi.
  destruct (df !! i) as [r|] eqn:Hr; simplify_eq/=.
  apply expand_row_length. apply (token_count_le_width _ _ i).
  by rewrite list_lookup_fmap, Hr.
Qed.

(** ** Name extraction *)

Lemma mapM_colname_tokens (toks : list string) :
  mapM colname (Str <$> toks)
  = Ok ((λ t, default EmptyString (head (split "-" t))) <$> toks).
Proof.
  induction toks as [|t toks IH]; [done|].
  rewrite fmap_cons, mapM_cons, IH. done.
Qed.

Lemma mapM_colname_missing (toks : list string) (o : obj) (rest : list obj) :
  (∀ s, o ≠ Str s) →
  mapM colname ((Str <$> toks) ++ o :: rest) = Raise AttributeError.
Proof.
  intros Ho. apply mapM_Raise. exists (Str <$> toks), o, rest.
  split; [done|]. split.
  - apply Forall_fmap, Forall_forall. intros t _. simpl. eauto.
  - destruct o; simpl; [by destruct (Ho s)|done..].
Qed.

(** [derive_colnames] computed: what is raised and when. *)
Lemma derive_colnames_eq df :
  derive_colnames (split_categories df) =
  match df with
  | [] => Raise IndexError
  | r :: _ =>
      match j_categories r with
      | Some s =>
          if decide (length (split ";" s) = frame_width ";" (j_categories <$> df))
          then Ok (colnames_of s) else Raise AttributeError
      | None => Raise AttributeError
      end
  end.
Proof.
  unfold derive_colnames, iloc. rewrite split_categories_lookup.
  destruct df as [|r df]; [done|].
  pose proof (token_count_le_width ";" (j_categories <$> r :: df) 0
                (j_categories r) eq_refl) as Hle.
  set (w := frame_width ";" (j_categories <$> r :: df)) in *. clearbody w.
  simpl. destruct (j_categories r) as [s|]; simpl in *.
  - case_decide as Hw.
    + rewrite Hw, Nat.sub_diag. simpl. rewrite app_nil_r.
      apply mapM_colname_tokens.
    + destruct (w - length (split ";" s))%nat as [|n] eqn:Hn; [lia|].
      simpl. by apply mapM_colname_missing.
  - destruct w as [|n]; [lia|]. done.
Qed.

(** ** Value coercion *)

Lemma convert_cell_Ok d c v :
  convert_cell d c = Ok v →
  v = value_of d c ∧
  ∀ ch, str_get_last (astype_str d c) = Some ch → is_digit ch = true.
Proof.
  unfold convert_cell, value_of, to_numeric_cell.
  destruct (str_get_last (astype_str d c)) as [ch|]; simpl.
  - destruct (is_digit ch) eqn:Hch; [|done]. intros [= <-]. split; [done|].
    by intros ? [= <-].
  - intros [= <-]. done.
Qed.

Lemma convert_cell_Raise d c e :
  convert_cell d c = Raise e ↔
  e = ValueError ∧
  ∃ ch, str_get_last (astype_str d c) = Some ch ∧ is_digit ch = false.
Proof.
  unfold convert_cell, to_numeric_cell.
  destruct (str_get_last (astype_str d c)) as [ch|]; simpl.
  - destruct (is_digit ch) eqn:Hch.
    + split; [done|]. intros (_ & ? & [= <-] & ?). congruence.
    + split; [intros [= <-]; eauto|]. by intros (-> & _).
  - split; [done|]. by intros (_ & ? & ? & _).
Qed.

Lemma convert_column_Ok d names frame j name col :
  convert_column d names frame j name = Ok col ↔
  length (filter (λ c, c = name) names) = 1%nat ∧
  Forall2 (λ cells v, convert_cell d (default PyNone (cells !! j)) = Ok v) frame col.
Proof.
  unfold convert_column, to_numeric, cells_at. case_decide as Hn.
  - rewrite mapM_Ok, !Forall2_fmap_l. split; [by intros ?|by intros [_ ?]].
  - split; [done|]. by intros [? _].
Qed.

Lemma convert_column_Raise d names frame j name e :
  convert_column d names frame j name = Raise e →
  (length (filter (λ c, c = name) names) ≠ 1%nat ∧ e = AttributeError) ∨
  (length (filter (λ c, c = name) names) = 1%nat ∧ e = ValueError ∧
   ∃ cells, cells ∈ frame ∧
            convert_cell d (default PyNone (cells !! j)) = Raise ValueError).
Proof.
  unfold convert_column, to_numeric, cells_at. case_decide as Hn.
  - intros (l1 & x & l2 & Hl & _ & Hx)%mapM_Raise. right.
    assert (x ∈ str_get_last <$> (astype_str d <$>
              ((λ cells, default PyNone (cells !! j)) <$> frame))) as Hin.
    { rewrite Hl. set_solver. }
    apply list_elem_of_fmap in Hin as (y & -> & Hin).
    apply list_elem_of_fmap in Hin as (z & -> & Hin).
    apply list_elem_of_fmap in Hin as (cells & -> & Hin).
    fold (convert_cell d (default PyNone (cells !! j))) in Hx.
    pose proof Hx as (-> & _)%convert_cell_Raise. eauto.
  - intros [= <-]. by left.
Qed.

(** The converted columns, read row by row, hold the value of every cell
    of the split frame. *)
Lemma converted_rows d names (frame : list (list obj)) converted w :
  Forall2 (λ p col, convert_column d names frame p.1 p.2 = Ok col)
          (imap pair names) converted →
  length names = w →
  (∀ i cells, frame !! i = Some cells → length cells = w) →
  ∀ i cells, frame !! i = Some cells →
    cells_at None i converted = value_of d <$> cells ∧
    Forall (λ c, convert_cell d c = Ok (value_of d c)) cells.
Proof.
  intros Hconv Hnames Hrect i cells Hi.
  pose proof (Forall2_length _ _ _ Hconv) as Hlen.
  rewrite length_imap in Hlen.
  assert (∀ j c, cells !! j = Some c →
            ∃ col, converted !! j = Some col ∧ col !! i = Some (value_of d c) ∧
                   convert_cell d c = Ok (value_of d c)) as Hcell.
  { intros j c Hc.
    assert (j < length names)%nat as Hj.
    { rewrite Hnames, <-(Hrect i cells Hi). by eapply lookup_lt_Some. }
    apply lookup_lt_is_Some in Hj as [name Hname].
    assert (imap pair names !! j = Some (j, name)) as Hp.
    { by rewrite list_lookup_imap, Hname. }
    destruct (Forall2_lookup_l _ _ _ _ _ Hconv Hp) as (col & Hcol & Hok).
    simpl in Hok. apply convert_column_Ok in Hok as [_ Hok].
    destruct (Forall2_lookup_l _ _ _ _ _ Hok Hi) as (v & Hv & Hcv).
    rewrite Hc in Hcv. simpl in Hcv.
    pose proof Hcv as [-> _]%convert_cell_Ok. eauto. }
  split.
  - apply list_eq. intros j. unfold cells_at. rewrite !list_lookup_fmap.
    destruct (cells !! j) as [c|] eqn:Hc; simpl.
    + destruct (Hcell j c Hc) as (col & Hcol & Hv & _).
      rewrite Hcol. simpl. by rewrite Hv.
    + apply lookup_ge_None in Hc. rewrite (Hrect i cells Hi) in Hc.
      rewrite (lookup_ge_None_2 converted j); [done|lia].
  - apply Forall_lookup. intros j c Hc.
    by destruct (Hcell j c Hc) as (_ & _ & _ & ?).
Qed.

Lemma concat_expanded d (df : list joined_row) converted :
  (∀ i cells, split_categories df !! i = Some cells →
     cells_at None i converted = value_of d <$> cells) →
  concat (drop_categories <$> df) converted = expanded d df.
Proof.
  intros Hrows. apply list_eq. intros i. unfold concat, expanded.
  rewrite list_lookup_imap, lookup_zip_with, list_lookup_fmap.
  destruct (df !! i) as [r|] eqn:Hr; simpl; [|done].
  destruct (split_categories df !! i) as [cells|] eqn:Hcells; simpl.
  - by rewrite (Hrows i cells Hcells).
  - apply lookup_ge_None in Hcells. rewrite split_categories_length in Hcells.
    apply lookup_lt_Some in Hr. lia.
Qed.

(** What a successful run of [clean_data] has done. *)
Lemma clean_data_Ok d df out :
  clean_data d df = Ok out →
  ∃ names,
    derive_colnames (split_categories df) = Ok names ∧
    (∀ cells c, cells ∈ split_categories df → c ∈ cells →
       convert_cell d c = Ok (value_of d c)) ∧
    out = CleanedFrame (message_columns ++ names) (drop_duplicates (expanded d df)).
Proof.
  unfold clean_data.
  intros (names & Hnames & (converted & Hconv & [= <-])%bind_Ok)%bind_Ok.
  exists names. split; [done|].
  apply mapM_Ok in Hconv.
  assert (length names = frame_width ";" (j_categories <$> df)) as Hw.
  { rewrite derive_colnames_eq in Hnames.
    destruct df as [|r df]; [done|].
    destruct (j_categories r) as [s|]; [|done].
    case_decide as Hs; [|done]. injection Hnames as <-.
    unfold colnames_of. by rewrite length_fmap. }
  pose proof (converted_rows d names _ converted _ Hconv Hw
                (split_categories_rect df)) as Hrows.
  split.
  - intros cells c (i & Hi)%list_elem_of_lookup Hc.
    destruct (Hrows i cells Hi) as [_ Hall].
    by eapply Forall_forall in Hall.
  - f_equal. f_equal. apply concat_expanded.
    intros i cells Hi. by destruct (Hrows i cells Hi).
Qed.

(** ** Dropping duplicates *)

Section drop_duplicates.
Context {A : Type} `{EqDecision A}.
Implicit Types (frame seen : list A) (r : A).

Lemma unmarked_cons r frame (b : bool) mask :
  unmarked (r :: frame) (b :: mask)
  = if b then unmarked frame mask else r :: unmarked frame mask.
Proof.
  unfold unmarked. simpl. rewrite filter_cons. simpl.
  destruct b; case_decide; done.
Qed.

Lemma unmarked_from_cons seen r frame :
  unmarked (r :: frame) (duplicated_from seen (r :: frame))
  = if decide (r ∈ seen) then unmarked frame (duplicated_from (r :: seen) frame)
    else r :: unmarked frame (duplicated_from (r :: seen) frame).
Proof.
  simpl. rewrite unmarked_cons.
  case_decide; [by rewrite bool_decide_eq_true_2|by rewrite bool_decide_eq_false_2].
Qed.

Lemma elem_of_unmarked_from seen frame r :
  r ∈ unmarked frame (duplicated_from seen frame) ↔ r ∈ frame ∧ r ∉ seen.
Proof.
  revert seen. induction frame as [|x frame IH]; intros seen.
  - set_solver.
  - rewrite unmarked_from_cons. destruct (decide (r = x)) as [->|Hne].
    + case_decide; [rewrite IH|rewrite elem_of_cons, IH]; set_solver.
    + case_decide; [rewrite IH|rewrite elem_of_cons, IH]; set_solver.
Qed.

Lemma NoDup_unmarked_from seen frame :
  NoDup (unmarked frame (duplicated_from seen frame)).
Proof.
  revert seen. induction frame as [|x frame IH]; intros seen.
  - constructor.
  - rewrite unmarked_from_cons. case_decide; [apply IH|].
    constructor; [|apply IH]. rewrite elem_of_unmarked_from. set_solver.
Qed.

Lemma unmarked_from_NoDup seen frame :
  NoDup frame → (∀ r, r ∈ frame → r ∉ seen) →
  unmarked frame (duplicated_from seen frame) = frame.
Proof.
  revert seen. induction frame as [|x frame IH]; intros seen Hnd Hseen; [done|].
  apply NoDup_cons in Hnd as [Hx Hnd].
  rewrite unmarked_from_cons. case_decide as Hin.
  - destruct (Hseen x); [set_solver|done].
  - f_equal. apply IH; [done|]. intros r Hr. specialize (Hseen r). set_solver.
Qed.

Lemma unmarked_from_length seen frame :
  (length (unmarked frame (duplicated_from seen frame)) ≤ length frame)%nat.
Proof.
  revert seen. induction frame as [|x frame IH]; intros seen; [done|].
  rewrite unmarked_from_cons. specialize (IH (x :: seen)).
  case_decide; simpl; lia.
Qed.

Lemma unmarked_from_full seen frame :
  length (unmarked frame (duplicated_from seen frame)) = length frame →
  NoDup frame ∧ ∀ r, r ∈ frame → r ∉ seen.
Proof.
  revert seen. induction frame as [|x frame IH]; intros seen Hlen.
  - split; [constructor|set_solver].
  - rewrite unmarked_from_cons in Hlen.
    pose proof (unmarked_from_length (x :: seen) frame) as Hle.
    case_decide as Hin; simpl in Hlen; [lia|].
    destruct (IH (x :: seen)) as [Hnd Hseen]; [lia|]. split.
    + constructor; [|done]. intros Hx. specialize (Hseen x Hx). set_solver.
    + intros r [->|Hr]%elem_of_cons; [done|]. specialize (Hseen r Hr). set_solver.
Qed.

Lemma elem_of_drop_duplicates frame r : r ∈ drop_duplicates frame ↔ r ∈ frame.
Proof.
  unfold drop_duplicates, duplicated. rewrite elem_of_unmarked_from. set_solver.
Qed.

Lemma drop_duplicates_length frame :
  (length (drop_duplicates frame) ≤ length frame)%nat.
Proof. apply unmarked_from_length. Qed.

Lemma drop_duplicates_length_eq frame :
  length (drop_duplicates frame) = length frame ↔ NoDup frame.
Proof.
  split.
  - by intros [? _]%unmarked_from_full.
  - intros Hnd. unfold drop_duplicates, duplicated.
    rewrite unmarked_from_NoDup; [done..|set_solver].
Qed.
End drop_duplicates.

(** ** Loader: the inner join *)

Lemma elem_of_merge messages categories r :
  r ∈ merge messages categories ↔
  ∃ m c, m ∈ messages ∧ c ∈ categories ∧ c_id c = m_id m ∧
         r = JoinedRow (m_id m) (m_message m) (m_original m) (m_genre m)
                       (c_categories c).
Proof.
  unfold merge. rewrite list_elem_of_bind. split.
  - intros (m & (c & -> & [Hid Hc]%list_elem_of_filter)%list_elem_of_fmap & Hm).
    eauto 10.
  - intros (m & c & Hm & Hc & Hid & ->). exists m. split; [|done].
    apply list_elem_of_fmap. exists c. split; [done|].
    by apply list_elem_of_filter.
Qed.

Lemma count_id_matching (m : message_row) categories k :
  count_id j_id k
    ((λ c, JoinedRow (m_id m) (m_message m) (m_original m) (m_genre m)
                     (c_categories c))
       <$> filter (λ c, c_id c = m_id m) categories)
  = if decide (m_id m = k) then count_id c_id k categories else 0%nat.
Proof.
  unfold count_id. induction categories as [|c categories IH].
  - by case_decide.
  - rewrite (filter_cons (λ c, c_id c = k)), (filter_cons (λ c, c_id c = m_id m)).
    destruct (decide (c_id c = m_id m)) as [Hc|Hc].
    + rewrite fmap_cons, filter_cons. simpl.
      repeat case_decide; simpl; congruence.
    + repeat case_decide; simpl; congruence.
Qed.

Lemma count_id_merge messages categories k :
  count_id j_id k (merge messages categories)
  = (count_id m_id k messages * count_id c_id k categories)%nat.
Proof.
  unfold merge. induction messages as [|m messages IH]; [done|].
  rewrite bind_cons. unfold count_id at 1. rewrite filter_app, length_app.
  fold (count_id j_id k ((λ c, JoinedRow (m_id m) (m_message m) (m_original m)
                                 (m_genre m) (c_categories c))
                           <$> filter (λ c, c_id c = m_id m) categories)).
  rewrite count_id_matching.
  unfold count_id in IH at 1. rewrite IH.
  assert (count_id m_id k (m :: messages)
          = ((if decide (m_id m = k) then 1 else 0) + count_id m_id k messages)%nat)
    as ->.
  { unfold count_id. rewrite filter_cons. by case_decide. }
  case_decide; lia.
Qed.

(** ** The rows of a cleaned frame *)

Lemma expanded_lookup d df i :
  expanded d df !! i
  = (λ r, CleanedRow (j_id r) (j_message r) (j_original r) (j_genre r)
            (value_of d <$> expand_row ";" (frame_width ";" (j_categories <$> df))
                              (j_categories r)))
      <$> df !! i.
Proof.
  unfold expanded. rewrite lookup_zip_with, split_categories_lookup.
  by destruct (df !! i).
Qed.

Lemma expanded_length d df : length (expanded d df) = length df.
Proof.
  unfold expanded. rewrite length_zip_with, split_categories_length. lia.
Qed.

Lemma expanded_messages d df : message_of <$> expanded d df = drop_categories <$> df.
Proof.
  apply list_eq. intros i. rewrite !list_lookup_fmap, expanded_lookup.
  by destruct (df !! i).
Qed.

Lemma clean_data_row d df out i r cells :
  clean_data d df = Ok out →
  df !! i = Some r →
  split_categories df !! i = Some cells →
  CleanedRow (j_id r) (j_message r) (j_original r) (j_genre r) (value_of d <$> cells)
    ∈ rows out.
Proof.
  intros (names & _ & _ & ->)%clean_data_Ok Hr Hcells. simpl.
  apply elem_of_drop_duplicates, list_elem_of_lookup. exists i.
  rewrite expanded_lookup, Hr. simpl. do 2 f_equal.
  rewrite split_categories_lookup, Hr in Hcells. simpl in Hcells.
  by injection Hcells as ->.
Qed.

Lemma string_row_cells df i r s :
  df !! i = Some r → j_categories r = Some s →
  (length (split ";" s) ≤ frame_width ";" (j_categories <$> df))%nat ∧
  split_categories df !! i
  = Some ((Str <$> split ";" s)
          ++ replicate (frame_width ";" (j_categories <$> df) - length (split ";" s))
               PyNone).
Proof.
  intros Hr Hs. split.
  - apply (token_count_le_width ";" (j_categories <$> df) i (Some s)).
    by rewrite list_lookup_fmap, Hr, <-Hs.
  - by rewrite split_categories_lookup, Hr; simpl; rewrite Hs.
Qed.

Lemma cell_unparsable_true d c :
  cell_unparsable d c = true ↔
  ∃ ch, str_get_last (astype_str d c) = Some ch ∧ is_digit ch = false.
Proof.
  unfold cell_unparsable. destruct (str_get_last (astype_str d c)) as [ch|].
  - rewrite negb_true_iff. split; [eauto|]. by intros (? & [= <-] & ?).
  - split; [done|]. by intros (? & ? & _).
Qed.

Lemma some_cell_unparsable_true d df :
  some_cell_unparsable d df = true ↔
  ∃ cells c, cells ∈ split_categories df ∧ c ∈ cells ∧ cell_unparsable d c = true.
Proof.
  unfold some_cell_unparsable. rewrite existsb_exists. split.
  - intros (cells & Hcells%list_elem_of_In & (c & Hc%list_elem_of_In & Hbad)%existsb_exists).
    eauto.
  - intros (cells & c & Hcells & Hc & Hbad). exists cells.
    split; [by apply list_elem_of_In|]. apply existsb_exists. exists c.
    split; [by apply list_elem_of_In|done].
Qed.

(** ** Failures of the cleaner *)

Lemma clean_data_derive_Raise d df e :
  derive_colnames (split_categories df) = Raise e → clean_data d df = Raise e.
Proof. unfold clean_data. by intros ->. Qed.

Lemma derive_colnames_Ok df names :
  derive_colnames (split_categories df) = Ok names ↔
  ∃ r s, df !! 0%nat = Some r ∧ j_categories r = Some s ∧
         length (split ";" s) = frame_width ";" (j_categories <$> df) ∧
         names = colnames_of s.
Proof.
  rewrite derive_colnames_eq. destruct df as [|r df]; simpl.
  - split; [done|]. by intros (? & ? & ? & _).
  - destruct (j_categories r) as [s|] eqn:Hs.
    + case_decide as Hw.
      * split; [intros [= <-]; eauto 10|].
        intros (? & ? & [= <-] & Hs' & _ & ->). congruence.
      * split; [done|]. intros (? & ? & [= <-] & Hs' & Hw' & _).
        rewrite Hs in Hs'. injection Hs' as <-. done.
    + split; [done|]. intros (? & ? & [= <-] & Hs' & _). congruence.
Qed.

Lemma derive_colnames_not_ValueError df :
  derive_colnames (split_categories df) ≠ Raise ValueError.
Proof.
  rewrite derive_colnames_eq. destruct df as [|r df]; [done|].
  destruct (j_categories r); [case_decide|]; done.
Qed.

Lemma clean_data_Raise d df e :
  clean_data d df = Raise e →
  derive_colnames (split_categories df) = Raise e ∨
  ∃ names j name,
    derive_colnames (split_categories df) = Ok names ∧
    names !! j = Some name ∧
    convert_column d names (split_categories df) j name = Raise e.
Proof.
  unfold clean_data. intros [Hd|(names & Hd & Hloop)]%bind_Raise; [by left|].
  right. apply bind_Raise in Hloop as [Hloop|(? & _ & [=])].
  apply mapM_Raise in Hloop as (l1 & [j name] & l2 & Hl & _ & Hcol).
  assert ((j, name) ∈ imap pair names) as Hin by (rewrite Hl; set_solver).
  apply list_elem_of_lookup_1 in Hin as [j' Hj'].
  rewrite list_lookup_imap in Hj'.
  destruct (names !! j') as [name'|] eqn:Hname; simplify_eq/=. eauto 10.
Qed.

Lemma count_NoDup (names : list string) name :
  NoDup names → name ∈ names →
  length (filter (λ c, c = name) names) = 1%nat.
Proof.
  induction 1 as [|x names Hx Hnd IH]; [by intros ?%elem_of_nil|].
  rewrite filter_cons. intros [->|Hin]%elem_of_cons.
  - rewrite decide_True by done. simpl. f_equal.
    destruct (filter (λ c, c = x) names) as [|y l] eqn:Hf; [done|].
    assert (y ∈ filter (λ c, c = x) names) as [-> ?]%list_elem_of_filter
      by (rewrite Hf; set_solver).
    done.
  - case_decide as Heq; [subst; done|]. by apply IH.
Qed.

(** * The cleaner: values *)

(** C1. Whenever [clean_data] returns a frame, every input row has its
    cleaned row in it, and the value stored at each position of that row is
    the integer read from the last character of the text cast of the cell
    at that position of the split frame; every such last character is a
    digit.  At the position of a token of the row's [categories] string the
    cell is that token and its text cast is the token itself.  The value is
    not clamped: the token [related-2] gives 2. *)
Theorem clean_data_last_character d df out i r :
  clean_data d df = Ok out →
  df !! i = Some r →
  (∃ cells,
     split_categories df !! i = Some cells ∧
     CleanedRow (j_id r) (j_message r) (j_original r) (j_genre r)
       ((λ c, digit_value <$> str_get_last (astype_str d c)) <$> cells)
       ∈ rows out ∧
     Forall (λ c, ∀ ch, str_get_last (astype_str d c) = Some ch →
                        is_digit ch = true) cells ∧
     ∀ s j t, j_categories r = Some s → split ";" s !! j = Some t →
       cells !! j = Some (Str t) ∧
       str_get_last (astype_str d (Str t)) = last_char t) ∧
  ∀ d', clean_data d' table_related_2
        = Ok (CleanedFrame ["id"; "message"; "original"; "genre";
                            "related"; "request"]%string
                           [help_cleaned 1 [Some 2; Some 1]]).
Proof.
  intros Hout Hr. split; [|by intros []].
  destruct (split_categories df !! i) as [cells|] eqn:Hcells.
  - exists cells. split; [done|]. split; [|split].
    + apply (clean_data_row d df out i r cells Hout Hr Hcells).
    + apply clean_data_Ok in Hout as (names & _ & Hcell & _).
      apply Forall_forall. intros c Hc ch Hch.
      assert (convert_cell d c = Ok (value_of d c)) as Hok.
      { apply (Hcell cells); [|done]. by eapply list_elem_of_lookup_2. }
      apply convert_cell_Ok in Hok as [_ Hdigit]. by apply Hdigit.
    + intros s j t Hs Ht.
      destruct (string_row_cells df i r s Hr Hs) as [_ Hrow].
      rewrite Hcells in Hrow. injection Hrow as ->. split.
      * apply lookup_app_l_Some. by rewrite list_lookup_fmap, Ht.
      * by destruct d.
  - apply lookup_ge_None in Hcells. rewrite split_categories_length in Hcells.
    apply lookup_lt_Some in Hr. lia.
Qed.

Lemma clean_data_last_character_witness :
  clean_data ObjectDtype table_related_2
  = Ok (CleanedFrame ["id"; "message"; "original"; "genre"; "related"; "request"]%string
                     [help_cleaned 1 [Some 2; Some 1]]) ∧
  table_related_2 !! 0%nat = Some (help_row 1 "related-2;request-1") ∧
  ∃ cells,
    split_categories table_related_2 !! 0%nat = Some cells ∧
    help_cleaned 1 ((λ c, digit_value <$> str_get_last (astype_str ObjectDtype c))
                      <$> cells)
      ∈ [help_cleaned 1 [Some 2; Some 1]].
Proof.
  split; [reflexivity|]. split; [reflexivity|].
  destruct (clean_data_last_character ObjectDtype table_related_2
              (CleanedFrame ["id"; "message"; "original"; "genre";
                             "related"; "request"]%string
                            [help_cleaned 1 [Some 2; Some 1]])
              0%nat (help_row 1 "related-2;request-1") eq_refl eq_refl)
    as [(cells & Hcells & Hrow & _) _].
  exists cells. split; [exact Hcells|exact Hrow].
Defined.

(** * The cleaner: the rest of the row *)

(** C9. Whenever [clean_data] returns a frame, its column labels are those
    of the input without [categories], followed by the derived category
    names; and each of its rows comes from an input row and holds that
    row's [id], [message], [original] and [genre] unchanged. *)
Theorem clean_data_frame d df out :
  clean_data d df = Ok out →
  (∃ names, derive_colnames (split_categories df) = Ok names ∧
            columns out = ["id"; "message"; "original"; "genre"]%string ++ names) ∧
  ∀ r', r' ∈ rows out →
    ∃ i r, df !! i = Some r ∧ expanded d df !! i = Some r' ∧
           r_id r' = j_id r ∧ r_message r' = j_message r ∧
           r_original r' = j_original r ∧ r_genre r' = j_genre r.
Proof.
  intros (names & Hnames & _ & ->)%clean_data_Ok. simpl. split; [eauto|].
  intros r' Hr'. apply (proj1 (elem_of_drop_duplicates _ _)) in Hr'.
  apply list_elem_of_lookup_1 in Hr' as [i Hi].
  pose proof Hi as Hi'. rewrite expanded_lookup in Hi'.
  destruct (df !! i) as [r|] eqn:Hr; [|done].
  injection Hi' as <-. exists i, r. by rewrite Hi.
Qed.

Lemma clean_data_frame_witness :
  clean_data ObjectDtype table_duplicates = Ok cleaned_duplicates ∧
  ∃ i r, table_duplicates !! i = Some r ∧
         r_id (help_cleaned 2 [Some 0; Some 7]) = j_id r ∧
         r_message (help_cleaned 2 [Some 0; Some 7]) = j_message r ∧
         r_original (help_cleaned 2 [Some 0; Some 7]) = j_original r ∧
         r_genre (help_cleaned 2 [Some 0; Some 7]) = j_genre r.
Proof.
  split; [reflexivity|].
  destruct (clean_data_frame ObjectDtype table_duplicates cleaned_duplicates
              eq_refl) as [_ Hrows].
  destruct (Hrows (help_cleaned 2 [Some 0; Some 7])) as (i & r & Hr & _ & Hframe).
  - apply (list_elem_of_lookup_2 _ 1%nat). reflexivity.
  - exists i, r. split; [exact Hr|exact Hframe].
Defined.

(** * The cleaner: the number of rows *)

(** C4, as the spec states it, fails: two rows can differ in [categories]
    only, in a way the cleaned columns do not keep (here the category
    name); their cleaned rows are equal and one of them is dropped. *)
Lemma clean_data_row_count_counterexample :
  NoDup table_same_values ∧
  clean_data ObjectDtype table_same_values
  = Ok (CleanedFrame ["id"; "message"; "original"; "genre"; "a"]%string
                     [help_cleaned 1 [Some 1]]) ∧
  clean_data StrDtype table_same_values
  = Ok (CleanedFrame ["id"; "message"; "original"; "genre"; "a"]%string
                     [help_cleaned 1 [Some 1]]) ∧
  length [help_cleaned 1 [Some 1]] ≠ length table_same_values.
Proof.
  split; [|by repeat split].
  apply (bool_decide_unpack _). reflexivity.
Qed.

(** C4, amended. Whenever [clean_data] returns a frame, it has at most as
    many rows as the input, and exactly as many if and only if no two input
    rows agree on every column other than [categories] and on the value at
    every position of the split frame; this is so in particular when no two
    input rows agree outside [categories].  The labels of the frame are
    those of the input with [categories] replaced by the category names. *)
Theorem clean_data_row_count d df out :
  clean_data d df = Ok out →
  (length (rows out) ≤ length df)%nat ∧
  (length (rows out) = length df ↔ NoDup (expanded d df)) ∧
  (NoDup (drop_categories <$> df) → length (rows out) = length df) ∧
  ∃ names, derive_colnames (split_categories df) = Ok names ∧
           columns out = ["id"; "message"; "original"; "genre"]%string ++ names.
Proof.
  intros (names & Hnames & _ & ->)%clean_data_Ok. simpl.
  pose proof (drop_duplicates_length (expanded d df)) as Hle.
  pose proof (drop_duplicates_length_eq (expanded d df)) as Heq.
  rewrite expanded_length in Hle, Heq.
  split; [done|]. split; [done|]. split; [|eauto].
  intros Hnd. apply Heq. apply (NoDup_fmap_1 message_of).
  by rewrite expanded_messages.
Qed.

Lemma clean_data_row_count_witness :
  clean_data ObjectDtype table_duplicates = Ok cleaned_duplicates ∧
  (length (rows cleaned_duplicates) ≤ length table_duplicates)%nat.
Proof.
  split; [reflexivity|].
  exact (proj1 (clean_data_row_count ObjectDtype table_duplicates
                  cleaned_duplicates eq_refl)).
Defined.

(** * The cleaner: column names *)

(** C5, as the spec states it, fails: the two tables have the same row 0,
    yet names are derived for the first and not for the second, whose
    second row is longer than row 0. *)
Lemma colnames_row0_counterexample :
  j_categories <$> table_row0_alone !! 0%nat
  = j_categories <$> table_longer_row !! 0%nat ∧
  derive_colnames (split_categories table_row0_alone) = Ok ["a"%string] ∧
  derive_colnames (split_categories table_longer_row) = Raise AttributeError ∧
  clean_data ObjectDtype table_longer_row = Raise AttributeError ∧
  clean_data StrDtype table_longer_row = Raise AttributeError.
Proof. by repeat split. Qed.

(** C5, amended. For any two input tables with the same row-0
    [categories] string for which [clean_data] derives column names, the
    names and their order are the same: the part before the first [-] of
    every [;]-separated token of that string.  Names are derived only for a
    table in which no row has more tokens than row 0. *)
Theorem colnames_from_row0 df1 df2 names1 names2 :
  j_categories <$> df1 !! 0%nat = j_categories <$> df2 !! 0%nat →
  derive_colnames (split_categories df1) = Ok names1 →
  derive_colnames (split_categories df2) = Ok names2 →
  names1 = names2 ∧
  ∃ s, j_categories <$> df1 !! 0%nat = Some (Some s) ∧
       names1 = (λ t, default EmptyString (head (split "-" t))) <$> split ";" s ∧
       Forall (λ r, token_count ";" (j_categories r) ≤ length (split ";" s))%nat df1.
Proof.
  intros Hrow0 (r1 & s1 & Hr1 & Hs1 & Hw1 & ->)%derive_colnames_Ok
               (r2 & s2 & Hr2 & Hs2 & _ & ->)%derive_colnames_Ok.
  rewrite Hr1, Hr2 in Hrow0. simpl in Hrow0. rewrite Hs1, Hs2 in Hrow0.
  injection Hrow0 as <-. split; [done|].
  exists s1. rewrite Hr1. simpl. rewrite Hs1. split; [done|]. split; [done|].
  apply Forall_lookup. intros i r Hr. rewrite Hw1.
  apply (token_count_le_width ";" (j_categories <$> df1) i).
  by rewrite list_lookup_fmap, Hr.
Qed.

Lemma colnames_from_row0_witness :
  j_categories <$> table_duplicates !! 0%nat
  = j_categories <$> table_letter !! 0%nat ∧
  derive_colnames (split_categories table_duplicates) = Ok ["a"; "b"]%string ∧
  derive_colnames (split_categories table_letter) = Ok ["a"; "b"]%string ∧
  ["a"; "b"]%string = ["a"; "b"]%string.
Proof.
  split; [reflexivity|]. split; [reflexivity|]. split; [reflexivity|].
  exact (proj1 (colnames_from_row0 table_duplicates table_letter
                  ["a"; "b"]%string ["a"; "b"]%string eq_refl eq_refl eq_refl)).
Defined.

(** * The cleaner: rows with another token count than row 0 *)

(** C3, as the spec states it, fails: a row with more tokens than row 0
    does not lose its extra tokens; the frame gets as wide as that row, row
    0 is padded, and [clean_data] raises while reading the names.  With
    text in [object] columns a row with fewer tokens than row 0 does not
    survive either: its padding is cast to the text [None] and cannot be
    parsed. *)
Lemma clean_data_token_counts_counterexample :
  (token_count ";" (Some "a-1"%string) < token_count ";" (Some "a-1;b-0"%string))%nat ∧
  split_categories table_longer_row
  = [[Str "a-1"; PyNone]; [Str "a-1"; Str "b-0"]] ∧
  clean_data ObjectDtype table_longer_row = Raise AttributeError ∧
  clean_data StrDtype table_longer_row = Raise AttributeError ∧
  split_categories table_shorter_row
  = [[Str "a-1"; Str "b-0"]; [Str "a-1"; PyNone]] ∧
  clean_data ObjectDtype table_shorter_row = Raise ValueError.
Proof. repeat split; try reflexivity. simpl. lia. Qed.

(** C3, amended. [clean_data] checks no token count, but: the split frame
    is as wide as the longest row; a row keeps all its tokens, in their
    positions, and is padded with absent cells up to that width.  When the
    row has more tokens than row 0, [clean_data] raises [AttributeError].
    When the row has fewer tokens than the widest row, [clean_data] raises
    with text in [object] columns; with the [str] dtype, if it returns, the
    row is in the result with the values of its tokens followed by absent
    values. *)
Theorem clean_data_token_counts d df i r s :
  df !! i = Some r →
  j_categories r = Some s →
  (length (split ";" s) ≤ frame_width ";" (j_categories <$> df))%nat ∧
  split_categories df !! i
  = Some ((Str <$> split ";" s)
          ++ replicate (frame_width ";" (j_categories <$> df) - length (split ";" s))
               PyNone) ∧
  (∀ r0 s0, df !! 0%nat = Some r0 → j_categories r0 = Some s0 →
     (length (split ";" s0) < length (split ";" s))%nat →
     clean_data d df = Raise AttributeError) ∧
  ((length (split ";" s) < frame_width ";" (j_categories <$> df))%nat →
     (∃ e, clean_data ObjectDtype df = Raise e) ∧
     ∀ out, clean_data StrDtype df = Ok out →
       CleanedRow (j_id r) (j_message r) (j_original r) (j_genre r)
         (((λ t, digit_value <$> last_char t) <$> split ";" s)
          ++ replicate (frame_width ";" (j_categories <$> df) - length (split ";" s))
               None)
         ∈ rows out).
Proof.
  intros Hr Hs. destruct (string_row_cells df i r s Hr Hs) as [Hle Hcells].
  split; [done|]. split; [done|]. split.
  - intros r0 s0 Hr0 Hs0 Hlt. apply clean_data_derive_Raise.
    rewrite derive_colnames_eq. destruct df as [|r0' df]; [done|].
    injection Hr0 as ->. rewrite Hs0. case_decide; [lia|done].
  - intros Hlt. split.
    + destruct (clean_data ObjectDtype df) as [out|e] eqn:Hclean; [|eauto].
      apply clean_data_Ok in Hclean as (names & _ & Hcell & _).
      assert (convert_cell ObjectDtype PyNone = Ok (value_of ObjectDtype PyNone))
        as Hbad; [|done].
      apply (Hcell _ PyNone (list_elem_of_lookup_2 _ _ _ Hcells)).
      apply elem_of_app. right.
      destruct (frame_width ";" (j_categories <$> df) - length (split ";" s))%nat
        as [|n] eqn:Hn; [lia|]. simpl. set_solver.
    + intros out Hclean.
      pose proof (clean_data_row StrDtype df out i r _ Hclean Hr Hcells) as Hrow.
      rewrite fmap_app, fmap_replicate, <-list_fmap_compose in Hrow.
      exact Hrow.
Qed.

Lemma clean_data_token_counts_witness :
  table_shorter_row !! 1%nat = Some (help_row 2 "a-1") ∧
  j_categories (help_row 2 "a-1") = Some "a-1"%string ∧
  split_categories table_shorter_row !! 1%nat
  = Some ((Str <$> split ";" "a-1")
          ++ replicate (frame_width ";" (j_categories <$> table_shorter_row)
                        - length (split ";" "a-1")) PyNone).
Proof.
  split; [reflexivity|]. split; [reflexivity|].
  exact (proj1 (proj2 (clean_data_token_counts ObjectDtype table_shorter_row 1%nat
                         (help_row 2 "a-1") "a-1" eq_refl eq_refl))).
Defined.

(** * The cleaner: parse errors *)

(** C7, as the spec states it, fails in both directions.  A token can end
    in a letter without [ValueError] being raised: in [table_longer_letter]
    the names cannot be read and [AttributeError] is raised first.  And
    with text in [object] columns [ValueError] is raised by
    [table_shorter_row], all of whose tokens end in a digit: the padding of
    its short row is cast to the text [None]. *)
Lemma clean_data_parse_error_counterexample :
  (some_token_unparsable table_longer_letter = true ∧
   clean_data ObjectDtype table_longer_letter = Raise AttributeError ∧
   clean_data StrDtype table_longer_letter = Raise AttributeError) ∧
  (some_token_unparsable table_shorter_row = false ∧
   clean_data ObjectDtype table_shorter_row = Raise ValueError).
Proof. by repeat split. Qed.

(** C7, amended. [clean_data] raises [ValueError] only if some cell of the
    split frame has a text cast whose last character is not a digit; so
    when the text cast of every cell is empty or ends in a digit, no
    [ValueError] is raised.  Conversely, when the names can be read off row
    0 and are pairwise different, such a cell makes [clean_data] raise
    [ValueError]. *)
Theorem clean_data_parse_error d df :
  (clean_data d df = Raise ValueError → some_cell_unparsable d df = true) ∧
  (∀ names, derive_colnames (split_categories df) = Ok names → NoDup names →
     some_cell_unparsable d df = true → clean_data d df = Raise ValueError).
Proof.
  split.
  - intros [Hd|(names & j & name & Hd & Hname & Hcol)]%clean_data_Raise.
    { by destruct (derive_colnames_not_ValueError df). }
    apply convert_column_Raise in Hcol as [[_ [=]]|(_ & _ & cells & Hcells & Hbad)].
    apply some_cell_unparsable_true. exists cells.
    assert (length cells = length names) as Hlen.
    { apply list_elem_of_lookup_1 in Hcells as [i Hi].
      rewrite (split_categories_rect df i cells Hi).
      apply derive_colnames_Ok in Hd as (? & s & _ & _ & <- & ->).
      unfold colnames_of. by rewrite length_fmap. }
    destruct (cells !! j) as [c|] eqn:Hc.
    + exists c. split; [done|]. split; [by eapply list_elem_of_lookup_2|].
      apply cell_unparsable_true. by apply convert_cell_Raise in Hbad as [_ ?].
    + apply lookup_ge_None in Hc. apply lookup_lt_Some in Hname. lia.
  - intros names Hd Hnd (cells & c & Hcells & Hc & Hbad)%some_cell_unparsable_true.
    destruct (clean_data d df) as [out|e] eqn:Hclean.
    + apply clean_data_Ok in Hclean as (_ & _ & Hcell & _).
      specialize (Hcell cells c Hcells Hc).
      apply cell_unparsable_true in Hbad as (ch & Hch & Hdigit).
      apply convert_cell_Ok in Hcell as [_ Hok]. specialize (Hok ch Hch). congruence.
    + apply clean_data_Raise in Hclean
        as [Hd'|(names' & j & name & Hd' & Hname & Hcol)]; [congruence|].
      assert (names' = names) as -> by congruence.
      apply convert_column_Raise in Hcol as [[Hcount _]|(_ & -> & _)]; [|done].
      destruct Hcount. apply count_NoDup; [done|].
      by eapply list_elem_of_lookup_2.
Qed.

Lemma clean_data_parse_error_witness :
  derive_colnames (split_categories table_letter) = Ok ["a"; "b"]%string ∧
  some_cell_unparsable ObjectDtype table_letter = true ∧
  clean_data ObjectDtype table_letter = Raise ValueError.
Proof.
  split; [reflexivity|]. split; [reflexivity|].
  apply (proj2 (clean_data_parse_error ObjectDtype table_letter)
           ["a"; "b"]%string eq_refl).
  - apply (bool_decide_unpack _). reflexivity.
  - reflexivity.
Defined.

(** * The cleaner: dropping duplicates, and the empty table *)

(** C6. Dropping duplicate rows is idempotent: on every frame, dropping
    them twice gives the same frame as dropping them once. *)
Theorem drop_duplicates_idempotent (frame : list cleaned_row) :
  drop_duplicates (drop_duplicates frame) = drop_duplicates frame.
Proof.
  unfold drop_duplicates at 1. unfold duplicated.
  apply unmarked_from_NoDup.
  - apply NoDup_unmarked_from.
  - intros r _. apply not_elem_of_nil.
Qed.

(** C10. On a table without rows the split frame has no row 0, and
    [clean_data] raises [IndexError] instead of returning an empty frame. *)
Theorem clean_data_empty d : clean_data d [] = Raise IndexError.
Proof. reflexivity. Qed.

(** * The persister *)



Lemma save_data_eq df database_filename files :
  save_data df database_filename files
  = match table_setup_error (Relation (df_columns df) (df_values df)) with
    | Some e => Raise e
    | None =>
        match create_table_error (Relation (df_columns df) (df_values df)) with
        | Some e => Raise e
        | None =>
            Ok (<[database_filename :=
                    <["disaster_messages"%string :=
                        Relation (df_columns df) (df_values df)]>
                      (create_engine files database_filename)]> files)
        end
    end.
Proof.
  unfold save_data, to_sql, written_relation.
  destruct (table_setup_error (Relation (df_columns df) (df_values df))); [done|].
  destruct (create_engine files database_filename !! "disaster_messages"%string);
    by destruct (create_table_error (Relation (df_columns df) (df_values df))).
Qed.

Lemma save_data_Ok df database_filename files files' :
  save_data df database_filename files = Ok files' →
  files' = <[database_filename :=
               <["disaster_messages"%string := Relation (df_columns df) (df_values df)]>
                 (create_engine files database_filename)]> files.
Proof.
  rewrite save_data_eq.
  destruct (table_setup_error _); [done|].
  destruct (create_table_error _); [done|]. by intros [= <-].
Qed.

Lemma save_data_refused df database_filename files :
  EmptyString ∈ df_columns df ∨ ¬ NoDup (df_columns df) →
  save_data df database_filename files = Raise ArgumentError ∨
  save_data df database_filename files = Raise ValueError.
Proof.
  intros Hlabels. rewrite save_data_eq. unfold table_setup_error. simpl.
  destruct (forallb (forallb int64_cell) (df_values df)); simpl; [|by right].
  rewrite bool_decide_eq_true_2 by done. by left.
Qed.




(** * The loader *)

(** C2. When [load_data] returns a frame, both files were read and the
    frame is their inner join on [id]: the [id] of every row of the frame
    occurs in both tables, and an [id] that occurs [m] times in the
    messages table and [n] times in the categories table occurs in exactly
    [m * n] rows of the frame (so in none when it is absent from either
    table). *)
Theorem load_data_inner_join messages_csv categories_csv
    messages_filepath categories_filepath df :
  load_data messages_csv categories_csv messages_filepath categories_filepath = Ok df →
  ∃ messages categories,
    messages_csv messages_filepath = Some messages ∧
    categories_csv categories_filepath = Some categories ∧
    df = merge messages categories ∧
    Forall (λ r, j_id r ∈ (m_id <$> messages) ∧ j_id r ∈ (c_id <$> categories)) df ∧
    ∀ k, count_id j_id k df
         = (count_id m_id k messages * count_id c_id k categories)%nat.
Proof.
  unfold load_data, read_csv. intros Hload.
  destruct (messages_csv messages_filepath) as [messages|]; [|done].
  destruct (categories_csv categories_filepath) as [categories|]; [|done].
  simpl in Hload. injection Hload as <-.
  exists messages, categories. do 3 (split; [done|]). split.
  - apply Forall_forall. intros r (m & c & Hm & Hc & Hid & ->)%elem_of_merge.
    simpl. split.
    + by apply list_elem_of_fmap_2.
    + rewrite <-Hid. by apply list_elem_of_fmap_2.
  - intros k. apply count_id_merge.
Qed.

Lemma load_data_inner_join_witness :
  load_data sample_messages_csv sample_categories_csv "messages.csv" "categories.csv"
  = Ok (merge sample_messages sample_categories) ∧
  count_id j_id 1 (merge sample_messages sample_categories) = 4%nat ∧
  count_id j_id 2 (merge sample_messages sample_categories) = 0%nat ∧
  count_id j_id 3 (merge sample_messages sample_categories) = 0%nat.
Proof.
  split; [reflexivity|].
  destruct (load_data_inner_join sample_messages_csv sample_categories_csv
              "messages.csv" "categories.csv"
              (merge sample_messages sample_categories) eq_refl)
    as (messages & categories & Hm & Hc & _ & _ & Hcount).
  injection Hm as <-. injection Hc as <-.
  rewrite !Hcount. repeat split.
Defined.

(** * Further properties of the cleaner *)

(** ** What [drop_duplicates] keeps *)

Lemma unmarked_nil_r {A} (frame : list A) : unmarked frame [] = [].
Proof. unfold unmarked. by destruct frame. Qed.

Lemma unmarked_sublist {A} (frame : list A) mask :
  (unmarked frame mask) `sublist_of` frame.
Proof.
  revert mask. induction frame as [|r frame IH]; intros mask; [done|].
  destruct mask as [|b mask].
  - rewrite unmarked_nil_r. apply sublist_nil_l.
  - rewrite unmarked_cons. destruct b.
    + by apply sublist_cons.
    + by apply sublist_skip.
Qed.

Lemma unmarked_fmap {A B} (f : A → B) (frame : list A) mask :
  unmarked (f <$> frame) mask = f <$> unmarked frame mask.
Proof.
  revert mask. induction frame as [|r frame IH]; intros mask; [done|].
  destruct mask as [|b mask].
  - by rewrite !unmarked_nil_r.
  - rewrite fmap_cons, !unmarked_cons, IH. by destruct b.
Qed.

(** The labels kept beside the rows kept: a kept row stands at its label,
    is not among the rows seen before, and does not occur before its
    label. *)
Lemma unmarked_labels {A} `{EqDecision A} (seen frame : list A) (start : nat) :
  Forall2 (λ label r,
             (start ≤ label)%nat ∧ frame !! (label - start)%nat = Some r ∧ (r ∉ seen) ∧
             ∀ j, (j < label - start)%nat → frame !! j ≠ Some r)
          (unmarked (seq start (length frame)) (duplicated_from seen frame))
          (unmarked frame (duplicated_from seen frame)).
Proof.
  revert seen start. induction frame as [|x frame IH]; intros seen start.
  - constructor.
  - simpl. rewrite !unmarked_cons.
    assert (Forall2 (λ label r,
               (start ≤ label)%nat ∧ (x :: frame) !! (label - start)%nat = Some r ∧
               (r ∉ seen) ∧ ∀ j, (j < label - start)%nat → (x :: frame) !! j ≠ Some r)
              (unmarked (seq (S start) (length frame)) (duplicated_from (x :: seen) frame))
              (unmarked frame (duplicated_from (x :: seen) frame))) as Hrest.
    { eapply Forall2_impl; [apply (IH (x :: seen) (S start))|].
      intros label r (Hle & Hr & Hseen & Hfirst). simpl in *.
      apply not_elem_of_cons in Hseen as [Hne Hseen].
      replace (label - start)%nat with (S (label - S start)) by lia.
      split; [lia|]. split; [done|]. split; [done|].
      intros [|j] Hj; simpl; [congruence|]. apply Hfirst. lia. }
    case_bool_decide as Hx; [done|].
    constructor; [|done]. rewrite Nat.sub_diag. simpl.
    split; [lia|]. split; [done|]. split; [done|]. intros j Hj. lia.
Qed.

(** ** Invariants of the frame [clean_data] returns *)

Lemma counts_NoDup (names : list string) :
  (∀ name, name ∈ names → length (filter (λ c, c = name) names) = 1%nat) →
  NoDup names.
Proof.
  induction names as [|x names IH]; intros Hcount; [constructor|].
  assert (x ∉ names) as Hx.
  { intros Hin. specialize (Hcount x (list_elem_of_here _ _)).
    rewrite filter_cons, decide_True in Hcount by done. simpl in Hcount.
    assert (x ∈ filter (λ c, c = x) names) as Hf by (by apply list_elem_of_filter).
    destruct (filter (λ c, c = x) names); [by apply elem_of_nil in Hf|done]. }
  constructor; [done|]. apply IH. intros name Hname.
  specialize (Hcount name (list_elem_of_further _ _ _ Hname)).
  rewrite filter_cons in Hcount. case_decide as Heq; [|done]. by subst.
Qed.

Lemma clean_data_Ok_names d df out :
  clean_data d df = Ok out →
  ∃ names, derive_colnames (split_categories df) = Ok names ∧ NoDup names ∧
           length names = frame_width ";" (j_categories <$> df) ∧
           columns out = message_columns ++ names.
Proof.
  unfold clean_data.
  intros (names & Hnames & (converted & Hconv & [= <-])%bind_Ok)%bind_Ok.
  exists names. split; [done|]. split; [|split; [|done]].
  - apply counts_NoDup. intros name (j & Hj)%list_elem_of_lookup_1.
    apply mapM_Ok in Hconv.
    assert (imap pair names !! j = Some (j, name)) as Hp
      by (by rewrite list_lookup_imap, Hj).
    destruct (Forall2_lookup_l _ _ _ _ _ Hconv Hp) as (col & _ & Hok).
    by apply convert_column_Ok in Hok as [? _].
  - apply derive_colnames_Ok in Hnames as (_ & s & _ & _ & <- & ->).
    unfold colnames_of. by rewrite length_fmap.
Qed.

Lemma is_digit_value ch : is_digit ch = true → 0 ≤ digit_value ch ≤ 9.
Proof.
  unfold is_digit, digit_value. intros Hd%bool_decide_eq_true. lia.
Qed.

(** X1. The frame [clean_data] returns has no two equal rows, and it
    loses nothing but duplicates: its rows are exactly the rows of the
    expanded frame, each once. *)
Theorem clean_data_no_duplicates d df out :
  clean_data d df = Ok out →
  NoDup (rows out) ∧ ∀ r', r' ∈ rows out ↔ r' ∈ expanded d df.
Proof.
  intros (names & _ & _ & ->)%clean_data_Ok. simpl. split.
  - apply NoDup_unmarked_from.
  - intros r'. apply elem_of_drop_duplicates.
Qed.

Lemma clean_data_no_duplicates_witness :
  clean_data ObjectDtype table_duplicates = Ok cleaned_duplicates ∧
  NoDup (rows cleaned_duplicates).
Proof.
  split; [reflexivity|].
  exact (proj1 (clean_data_no_duplicates ObjectDtype table_duplicates
                  cleaned_duplicates eq_refl)).
Defined.

(** X2. [clean_data] keeps the rows in their order and keeps the first of
    equal rows: the returned rows are a subsequence of the expanded frame,
    and the row kept under a label stands at that position of the expanded
    frame and nowhere before it. *)
Theorem clean_data_keeps_first d df out :
  clean_data d df = Ok out →
  (rows out) `sublist_of` (expanded d df) ∧
  Forall2 (λ label r',
             0 ≤ label ∧ expanded d df !! Z.to_nat label = Some r' ∧
             ∀ j, (j < Z.to_nat label)%nat → expanded d df !! j ≠ Some r')
          (cleaned_index d df) (rows out).
Proof.
  intros (names & _ & _ & ->)%clean_data_Ok. simpl. split.
  - apply unmarked_sublist.
  - unfold cleaned_index, drop_duplicates, duplicated.
    rewrite unmarked_fmap, Forall2_fmap_l, <-(expanded_length d df).
    eapply Forall2_impl; [apply (unmarked_labels [] (expanded d df) 0)|].
    intros label r (_ & Hr & _ & Hfirst). simpl.
    rewrite Nat2Z.id. rewrite Nat.sub_0_r in Hr, Hfirst.
    split; [lia|]. split; [done|]. done.
Qed.

Lemma clean_data_keeps_first_witness :
  clean_data ObjectDtype table_duplicates = Ok cleaned_duplicates ∧
  cleaned_index ObjectDtype table_duplicates = [0; 2] ∧
  (rows cleaned_duplicates) `sublist_of` (expanded ObjectDtype table_duplicates).
Proof.
  split; [reflexivity|]. split; [reflexivity|].
  exact (proj1 (clean_data_keeps_first ObjectDtype table_duplicates
                  cleaned_duplicates eq_refl)).
Defined.

(** X3. The frame [clean_data] returns is rectangular: every row has
    exactly one value for every category column, and the category names are
    pairwise different. *)
Theorem clean_data_shape d df out :
  clean_data d df = Ok out →
  ∃ names,
    columns out = ["id"; "message"; "original"; "genre"]%string ++ names ∧
    NoDup names ∧
    Forall (λ r', length (r_values r') = length names) (rows out).
Proof.
  intros Hout.
  destruct (clean_data_Ok_names d df out Hout) as (names & _ & Hnd & Hlen & Hcols).
  exists names. split; [done|]. split; [done|].
  apply clean_data_Ok in Hout as (? & _ & _ & ->). simpl.
  apply Forall_forall. intros r' Hr'.
  apply (proj1 (elem_of_drop_duplicates _ _)) in Hr'.
  apply list_elem_of_lookup_1 in Hr' as [i Hi].
  rewrite expanded_lookup in Hi.
  destruct (df !! i) as [r|] eqn:Hr; [|done]. simplify_eq/=.
  rewrite length_fmap, Hlen. apply expand_row_length.
  apply (token_count_le_width _ _ i). by rewrite list_lookup_fmap, Hr.
Qed.

Lemma clean_data_shape_witness :
  clean_data ObjectDtype table_duplicates = Ok cleaned_duplicates ∧
  ∃ names,
    columns cleaned_duplicates = ["id"; "message"; "original"; "genre"]%string ++ names ∧
    NoDup names ∧
    Forall (λ r', length (r_values r') = length names) (rows cleaned_duplicates).
Proof.
  split; [reflexivity|].
  exact (clean_data_shape ObjectDtype table_duplicates cleaned_duplicates eq_refl).
Defined.

(** X4. Every value [clean_data] stores is missing or a single digit:
    between 0 and 9, whatever the token said before its last character. *)
Theorem clean_data_value_range d df out :
  clean_data d df = Ok out →
  Forall (λ r', Forall (λ v, ∀ z, v = Some z → 0 ≤ z ≤ 9) (r_values r')) (rows out).
Proof.
  intros (names & _ & Hcell & ->)%clean_data_Ok. simpl.
  apply Forall_forall. intros r' Hr'.
  apply (proj1 (elem_of_drop_duplicates _ _)) in Hr'.
  apply list_elem_of_lookup_1 in Hr' as [i Hi].
  unfold expanded in Hi. apply lookup_zip_with_Some in Hi as (r & cells & -> & Hr & Hcells).
  simpl. apply Forall_fmap, Forall_forall. intros c Hc z Hz. simpl in Hz.
  specialize (Hcell cells c (list_elem_of_lookup_2 _ _ _ Hcells) Hc).
  apply convert_cell_Ok in Hcell as [_ Hdigit].
  unfold value_of in Hz.
  destruct (str_get_last (astype_str d c)) as [ch|]; [|done].
  injection Hz as <-. by apply is_digit_value, Hdigit.
Qed.

Lemma clean_data_value_range_witness :
  clean_data ObjectDtype table_duplicates = Ok cleaned_duplicates ∧
  Forall (λ r', Forall (λ v, ∀ z, v = Some z → 0 ≤ z ≤ 9) (r_values r'))
         (rows cleaned_duplicates).
Proof.
  split; [reflexivity|].
  exact (clean_data_value_range ObjectDtype table_duplicates cleaned_duplicates eq_refl).
Defined.

(** ** When [clean_data] returns *)

Lemma max_list_le (l : list nat) n : Forall (λ x, x ≤ n)%nat l → (max_list l ≤ n)%nat.
Proof. induction 1; simpl; lia. Qed.

Lemma convert_cell_token d t :
  (∀ ch, last_char t = Some ch → is_digit ch = true) →
  convert_cell d (Str t) = Ok (value_of d (Str t)).
Proof.
  intros Hdigit. unfold convert_cell, value_of.
  replace (astype_str d (Str t)) with (Str t) by (by destruct d). simpl.
  destruct (last_char t) as [ch|]; simpl; [|done]. by rewrite (Hdigit ch).
Qed.

(** X5. [clean_data] returns on every well-formed table: one with a first
    row, whose names are pairwise different, and in which every row has a
    [categories] string with as many tokens as row 0, each token empty or
    ending in a digit.  The frame it returns is the expanded frame without
    its duplicates, under the names of row 0. *)
Theorem clean_data_well_formed d df r0 s0 :
  df !! 0%nat = Some r0 →
  j_categories r0 = Some s0 →
  NoDup (colnames_of s0) →
  Forall (λ r, ∃ s, j_categories r = Some s ∧
                    length (split ";" s) = length (split ";" s0) ∧
                    Forall (λ t, ∀ ch, last_char t = Some ch → is_digit ch = true)
                           (split ";" s)) df →
  clean_data d df
  = Ok (CleanedFrame (["id"; "message"; "original"; "genre"]%string ++ colnames_of s0)
                     (drop_duplicates (expanded d df))).
Proof.
  intros Hr0 Hs0 Hnd Hrows.
  assert (frame_width ";" (j_categories <$> df) = length (split ";" s0)) as Hw.
  { apply Nat.le_antisymm.
    - apply max_list_le, Forall_fmap, Forall_fmap.
      eapply Forall_impl; [exact Hrows|]. intros r (s & Hs & Hlen & _). simpl.
      rewrite Hs. simpl. lia.
    - apply (token_count_le_width ";" (j_categories <$> df) 0 (Some s0)).
      by rewrite list_lookup_fmap, Hr0, <-Hs0. }
  assert (derive_colnames (split_categories df) = Ok (colnames_of s0)) as Hnames.
  { apply derive_colnames_Ok. exists r0, s0. by rewrite Hw. }
  set (converted := imap (λ j (_ : string),
                      value_of d <$> cells_at PyNone j (split_categories df))
                    (colnames_of s0)).
  assert (Forall2 (λ p col, convert_column d (colnames_of s0) (split_categories df)
                              p.1 p.2 = Ok col)
            (imap pair (colnames_of s0)) converted) as Hconv.
  { apply Forall2_same_length_lookup. split.
    { unfold converted. by rewrite !length_imap. }
    intros j0 [j name] col Hp Hcol. unfold converted in Hcol.
    rewrite list_lookup_imap in Hp. rewrite list_lookup_imap in Hcol.
    destruct (colnames_of s0 !! j0) as [name'|] eqn:Hname; simplify_eq/=.
    apply convert_column_Ok. split.
    { apply count_NoDup; [done|]. by eapply list_elem_of_lookup_2. }
    unfold cells_at. rewrite <-list_fmap_compose. apply Forall2_fmap_r.
    apply Forall_Forall2_diag, Forall_lookup. intros i cells Hcells. simpl.
    rewrite split_categories_lookup in Hcells.
    destruct (df !! i) as [r|] eqn:Hr; simplify_eq/=.
    destruct (proj1 (Forall_lookup _ _) Hrows i r Hr) as (s & Hs & Hlen & Hdigits).
    rewrite Hs. simpl. rewrite Hw, Hlen, Nat.sub_diag. simpl. rewrite app_nil_r.
    rewrite list_lookup_fmap.
    destruct (split ";" s !! j) as [t|] eqn:Ht; simpl.
    - apply convert_cell_token.
      apply (proj1 (Forall_lookup _ _) Hdigits j t Ht).
    - apply lookup_ge_None in Ht. apply lookup_lt_Some in Hname.
      unfold colnames_of in Hname. rewrite length_fmap in Hname. lia. }
  assert (length (colnames_of s0) = frame_width ";" (j_categories <$> df)) as Hlen.
  { unfold colnames_of. by rewrite length_fmap. }
  pose proof (converted_rows d _ _ converted _ Hconv Hlen
                (split_categories_rect df)) as Hcells.
  unfold clean_data. rewrite Hnames. simpl.
  apply mapM_Ok in Hconv. rewrite Hconv. simpl. do 3 f_equal.
  apply concat_expanded. intros i cells Hi. by destruct (Hcells i cells Hi).
Qed.

Lemma clean_data_well_formed_witness :
  table_related_2 !! 0%nat = Some (help_row 1 "related-2;request-1") ∧
  clean_data StrDtype table_related_2
  = Ok (CleanedFrame (["id"; "message"; "original"; "genre"]%string
                      ++ colnames_of "related-2;request-1")
                     (drop_duplicates (expanded StrDtype table_related_2))).
Proof.
  split; [reflexivity|].
  apply (clean_data_well_formed StrDtype table_related_2
           (help_row 1 "related-2;request-1") "related-2;request-1").
  - reflexivity.
  - reflexivity.
  - apply (bool_decide_unpack _). reflexivity.
  - constructor; [|constructor].
    exists "related-2;request-1"%string.
    split; [reflexivity|]. split; [reflexivity|].
    constructor; [|constructor; [|constructor]].
    + intros ch Hch. injection Hch as <-. reflexivity.
    + intros ch Hch. injection Hch as <-. reflexivity.
Defined.

(** X6. A row without a [categories] value.  In row 0 it makes
    [clean_data] raise [AttributeError].  In any row it makes [clean_data]
    raise when text is in [object] columns; with the [str] dtype the row
    survives a run that returns, with every category value missing. *)
Theorem clean_data_missing_categories d df i r :
  df !! i = Some r →
  j_categories r = None →
  (i = 0%nat → clean_data d df = Raise AttributeError) ∧
  (∃ e, clean_data ObjectDtype df = Raise e) ∧
  ∀ out, clean_data StrDtype df = Ok out →
    CleanedRow (j_id r) (j_message r) (j_original r) (j_genre r)
      (replicate (frame_width ";" (j_categories <$> df)) None) ∈ rows out.
Proof.
  intros Hr Hs.
  assert (split_categories df !! i
          = Some (replicate (frame_width ";" (j_categories <$> df)) NaN)) as Hcells.
  { by rewrite split_categories_lookup, Hr; simpl; rewrite Hs. }
  split; [|split].
  - intros ->. apply clean_data_derive_Raise. rewrite derive_colnames_eq.
    destruct df as [|r' df]; [done|]. injection Hr as ->. by rewrite Hs.
  - destruct (clean_data ObjectDtype df) as [out|e] eqn:Hclean; [|eauto].
    apply clean_data_Ok in Hclean as (names & _ & Hcell & _).
    assert (convert_cell ObjectDtype NaN = Ok (value_of ObjectDtype NaN))
      as Hbad; [|done].
    apply (Hcell _ NaN (list_elem_of_lookup_2 _ _ _ Hcells)).
    pose proof (token_count_le_width ";" (j_categories <$> df) i None) as Hle.
    rewrite list_lookup_fmap, Hr, <-Hs in Hle. specialize (Hle eq_refl).
    rewrite Hs in Hle. simpl in Hle.
    destruct (frame_width ";" (j_categories <$> df)) as [|n]; [lia|].
    simpl. set_solver.
  - intros out Hclean.
    pose proof (clean_data_row StrDtype df out i r _ Hclean Hr Hcells) as Hrow.
    by rewrite fmap_replicate in Hrow.
Qed.

Lemma clean_data_missing_categories_witness :
  [JoinedRow 1 (Some "help"%string) None (Some "direct"%string) None] !! 0%nat
  = Some (JoinedRow 1 (Some "help"%string) None (Some "direct"%string) None) ∧
  clean_data ObjectDtype
    [JoinedRow 1 (Some "help"%string) None (Some "direct"%string) None]
  = Raise AttributeError.
Proof.
  split; [reflexivity|].
  exact (proj1 (clean_data_missing_categories ObjectDtype
                  [JoinedRow 1 (Some "help"%string) None (Some "direct"%string) None]
                  0%nat
                  (JoinedRow 1 (Some "help"%string) None (Some "direct"%string) None)
                  eq_refl eq_refl) eq_refl).
Defined.

(** ** What [clean_data] does not look at *)

Lemma mapM_ext {A B} (f g : A → result B) (l : list A) :
  (∀ x, f x = g x) → mapM f l = mapM g l.
Proof.
  intros Hfg. induction l as [|x l IH]; [done|].
  by rewrite !mapM_cons, Hfg, IH.
Qed.

(** A column is converted from the last characters of its cells alone. *)
Lemma convert_column_last_chars d names (frame : list (list obj)) j name :
  convert_column d names frame j name
  = if decide (length (filter (λ c, c = name) names) = 1%nat)
    then to_numeric (cells_at (str_get_last (astype_str d PyNone)) j
                       ((λ cells : list obj, (str_get_last ∘ astype_str d) <$> cells)
                          <$> frame))
    else Raise AttributeError.
Proof.
  unfold convert_column. case_decide; [|done]. f_equal.
  unfold cells_at. rewrite <-!list_fmap_compose. apply list_fmap_ext.
  intros _ cells _. simpl. rewrite list_lookup_fmap. by destruct (cells !! j).
Qed.

Lemma last_chars_token_count x1 x2 :
  last_chars x1 = last_chars x2 → token_count ";" x1 = token_count ";" x2.
Proof.
  destruct x1 as [s1|], x2 as [s2|]; simpl; try done.
  intros [= Heq]. by rewrite <-(length_fmap last_char), Heq, length_fmap.
Qed.

Lemma last_chars_expand_row d w x1 x2 :
  last_chars x1 = last_chars x2 →
  (str_get_last ∘ astype_str d) <$> expand_row ";" w x1
  = (str_get_last ∘ astype_str d) <$> expand_row ";" w x2.
Proof.
  intros Heq. pose proof (last_chars_token_count _ _ Heq) as Hcount.
  destruct x1 as [s1|], x2 as [s2|]; simpl in *; try done.
  injection Heq as Heq. rewrite !fmap_app, <-!list_fmap_compose, Hcount.
  f_equal.
  assert (∀ s, (str_get_last ∘ astype_str d ∘ Str) <$> split ";" s
               = last_char <$> split ";" s) as Htok.
  { intros s. apply list_fmap_ext. intros _ t _. by destruct d. }
  by rewrite !Htok.
Qed.

(** X7. [clean_data] reads the category names in row 0 only, and of every
    token only its last character: two tables with the same row 0 whose
    rows agree outside [categories] and, token by token, on the last
    character give the same result, whatever names the later rows
    carry. *)
Theorem clean_data_ignores_later_names d df1 df2 :
  df1 !! 0%nat = df2 !! 0%nat →
  Forall2 (λ r1 r2, drop_categories r1 = drop_categories r2 ∧
                    last_chars (j_categories r1) = last_chars (j_categories r2))
          df1 df2 →
  clean_data d df1 = clean_data d df2.
Proof.
  intros Hrow0 Hrows.
  assert (drop_categories <$> df1 = drop_categories <$> df2) as Hdrop.
  { clear Hrow0. induction Hrows as [|r1 r2 df1 df2 [Hr _] _ IH]; [done|].
    by rewrite !fmap_cons, Hr, IH. }
  assert (token_count ";" <$> (j_categories <$> df1)
          = token_count ";" <$> (j_categories <$> df2)) as Hcounts.
  { clear Hrow0 Hdrop.
    induction Hrows as [|r1 r2 df1 df2 [_ Hr] _ IH]; [done|].
    rewrite !fmap_cons, IH. f_equal. by apply last_chars_token_count. }
  assert (frame_width ";" (j_categories <$> df1)
          = frame_width ";" (j_categories <$> df2)) as Hw.
  { unfold frame_width. by rewrite Hcounts. }
  assert ((λ cells : list obj, (str_get_last ∘ astype_str d) <$> cells)
            <$> split_categories df1
          = (λ cells : list obj, (str_get_last ∘ astype_str d) <$> cells)
              <$> split_categories df2) as Hframe.
  { unfold split_categories. rewrite !str_split_expand_rows, Hw.
    clear Hrow0 Hdrop Hcounts Hw.
    generalize (frame_width ";" (j_categories <$> df2)). intros w.
    induction Hrows as [|r1 r2 df1 df2 [_ Hr] _ IH]; [done|].
    rewrite !fmap_cons, IH. f_equal. by apply last_chars_expand_row. }
  assert (derive_colnames (split_categories df1)
          = derive_colnames (split_categories df2)) as Hnames.
  { rewrite !derive_colnames_eq, Hw.
    destruct Hrows as [|r1 r2 df1 df2 _ _]; [done|].
    by injection Hrow0 as ->. }
  unfold clean_data. rewrite Hnames, Hdrop.
  destruct (derive_colnames (split_categories df2)) as [names|e]; [|done]. simpl.
  rewrite (mapM_ext _ (λ p, convert_column d names (split_categories df2) p.1 p.2));
    [done|].
  intros [j name]. simpl. by rewrite !convert_column_last_chars, Hframe.
Qed.

Lemma clean_data_ignores_later_names_witness :
  clean_data ObjectDtype [help_row 1 "a-1;b-0"; help_row 2 "b-0;a-7"]
  = clean_data ObjectDtype [help_row 1 "a-1;b-0"; help_row 2 "x-0;y-7"].
Proof.
  apply clean_data_ignores_later_names.
  - reflexivity.
  - constructor; [split; reflexivity|].
    constructor; [split; reflexivity|]. constructor.
Defined.

(** ** The derived names *)

Lemma split_no_sep sep s : Forall (λ t, string_mem sep t = false) (split sep s).
Proof.
  induction s as [|c s IH]; simpl.
  - by constructor.
  - case_decide as Hc.
    + by constructor.
    + destruct (split sep s) as [|t ts].
      * constructor; [|done]. simpl. by rewrite bool_decide_eq_false_2.
      * apply Forall_cons in IH as [Ht Hts]. constructor; [|done].
        simpl. by rewrite bool_decide_eq_false_2, Ht.
Qed.

Lemma split_head_mem sep c s :
  string_mem c (default EmptyString (head (split sep s))) = true →
  string_mem c s = true.
Proof.
  induction s as [|c' s IH]; simpl; [done|].
  case_decide as Hc; simpl; [done|].
  destruct (split sep s) as [|t ts]; simpl in *.
  - rewrite orb_false_r. intros ->. done.
  - intros [->| Ht]%orb_true_iff; [done|]. rewrite IH by done. apply orb_true_r.
Qed.

(** X8. A derived column name holds neither the token separator [;] nor
    the name separator [-]. *)
Theorem colnames_without_separators df names :
  derive_colnames (split_categories df) = Ok names →
  Forall (λ name, string_mem "-" name = false ∧ string_mem ";" name = false) names.
Proof.
  intros (r & s & _ & _ & _ & ->)%derive_colnames_Ok.
  unfold colnames_of. apply Forall_fmap.
  eapply Forall_impl; [apply (split_no_sep ";" s)|]. intros t Ht. simpl. split.
  - pose proof (split_no_sep "-" t) as Hpieces.
    destruct (split "-" t) as [|piece pieces]; [done|].
    by apply Forall_cons in Hpieces as [? _].
  - destruct (string_mem ";" (default EmptyString (head (split "-" t)))) eqn:Hmem;
      [|done].
    apply split_head_mem in Hmem. congruence.
Qed.

Lemma colnames_without_separators_witness :
  derive_colnames (split_categories table_duplicates) = Ok ["a"; "b"]%string ∧
  Forall (λ name, string_mem "-" name = false ∧ string_mem ";" name = false)
         ["a"; "b"]%string.
Proof.
  split; [reflexivity|].
  exact (colnames_without_separators table_duplicates ["a"; "b"]%string eq_refl).
Defined.

(** * Further properties of the loader *)

Lemma count_id_cons {A} (key : A → Z) k (r : A) table :
  count_id key k (r :: table)
  = ((if decide (key r = k) then 1 else 0) + count_id key k table)%nat.
Proof. unfold count_id. rewrite filter_cons. by case_decide. Qed.

Lemma count_id_zero {A} (key : A → Z) k table :
  count_id key k table = 0%nat ↔ k ∉ key <$> table.
Proof.
  induction table as [|r table IH].
  - split; [intros _; apply not_elem_of_nil|done].
  - rewrite count_id_cons, fmap_cons, not_elem_of_cons, <-IH.
    case_decide as Hk; split.
    + lia.
    + intros [Hne _]. by destruct Hne.
    + intros Hz. split; [congruence|lia].
    + intros [_ Hz]. lia.
Qed.

Lemma NoDup_count_id {A} (key : A → Z) table :
  NoDup (key <$> table) ↔ ∀ k, (count_id key k table ≤ 1)%nat.
Proof.
  induction table as [|r table IH].
  - split; [intros _ k; unfold count_id; simpl; lia|constructor].
  - rewrite fmap_cons, NoDup_cons, IH. split.
    + intros [Hr Htable] k. rewrite count_id_cons.
      case_decide as Hk; [|apply Htable]. subst k.
      apply count_id_zero in Hr. lia.
    + intros Hcount. split.
      * apply count_id_zero. specialize (Hcount (key r)).
        rewrite count_id_cons, decide_True in Hcount by done. lia.
      * intros k. specialize (Hcount k). rewrite count_id_cons in Hcount. lia.
Qed.

Lemma merge_ids_l messages categories :
  ∀ k, k ∈ j_id <$> merge messages categories → k ∈ m_id <$> messages.
Proof.
  intros k (r & -> & (m & c & Hm & _ & _ & ->)%elem_of_merge)%list_elem_of_fmap.
  simpl. by apply list_elem_of_fmap_2.
Qed.

Lemma merge_ids_r messages categories :
  ∀ k, k ∈ j_id <$> merge messages categories → k ∈ c_id <$> categories.
Proof.
  intros k (r & -> & (m & c & _ & Hc & Hid & ->)%elem_of_merge)%list_elem_of_fmap.
  simpl. rewrite <-Hid. by apply list_elem_of_fmap_2.
Qed.

(** X9. When [id] is a key of both tables it is a key of their join: no
    [id] occurs twice in the merged frame, which then has no more rows
    than either table. *)
Theorem merge_unique_ids messages categories :
  NoDup (m_id <$> messages) →
  NoDup (c_id <$> categories) →
  NoDup (j_id <$> merge messages categories) ∧
  (length (merge messages categories) ≤ length messages)%nat ∧
  (length (merge messages categories) ≤ length categories)%nat.
Proof.
  intros Hm Hc.
  assert (NoDup (j_id <$> merge messages categories)) as Hj.
  { apply NoDup_count_id. intros k. rewrite count_id_merge.
    pose proof (proj1 (NoDup_count_id m_id messages) Hm k).
    pose proof (proj1 (NoDup_count_id c_id categories) Hc k). nia. }
  split; [done|]. split.
  - rewrite <-(length_fmap j_id), <-(length_fmap m_id messages).
    apply submseteq_length, NoDup_submseteq; [done|]. apply merge_ids_l.
  - rewrite <-(length_fmap j_id), <-(length_fmap c_id categories).
    apply submseteq_length, NoDup_submseteq; [done|]. apply merge_ids_r.
Qed.

Lemma merge_unique_ids_witness :
  NoDup (m_id <$> keyed_messages) ∧ NoDup (c_id <$> keyed_categories) ∧
  NoDup (j_id <$> merge keyed_messages keyed_categories).
Proof.
  assert (NoDup (m_id <$> keyed_messages)) as Hm
    by (apply (bool_decide_unpack _); reflexivity).
  assert (NoDup (c_id <$> keyed_categories)) as Hc
    by (apply (bool_decide_unpack _); reflexivity).
  split; [exact Hm|]. split; [exact Hc|].
  exact (proj1 (merge_unique_ids keyed_messages keyed_categories Hm Hc)).
Defined.

(** X10. When the two tables share no [id] the join is empty, and
    [clean_data] then raises [IndexError] instead of returning an empty
    frame. *)
Theorem merge_disjoint_ids d messages categories :
  (∀ m c, m ∈ messages → c ∈ categories → m_id m ≠ c_id c) →
  merge messages categories = [] ∧
  clean_data d (merge messages categories) = Raise IndexError.
Proof.
  intros Hdisjoint.
  assert (merge messages categories = []) as ->.
  { apply elem_of_nil_inv.
    intros r (m & c & Hm & Hc & Hid & _)%elem_of_merge.
    by destruct (Hdisjoint m c Hm Hc). }
  done.
Qed.

Lemma merge_disjoint_ids_witness :
  merge [MessageRow 1 (Some "help"%string) None (Some "direct"%string)]
        [CategoryRow 3 (Some "related-0;request-0"%string)] = [] ∧
  clean_data ObjectDtype
    (merge [MessageRow 1 (Some "help"%string) None (Some "direct"%string)]
           [CategoryRow 3 (Some "related-0;request-0"%string)])
  = Raise IndexError.
Proof.
  apply (merge_disjoint_ids ObjectDtype).
  intros m c Hm Hc.
  apply list_elem_of_In in Hm. apply list_elem_of_In in Hc.
  destruct Hm as [<-|[]]. destruct Hc as [<-|[]]. discriminate.
Defined.

(** * Further properties of the persister *)

(** X11. The last write wins: once a frame has been saved, saving a
    second frame to the same database file has the same outcome, the same
    files or the same exception, as saving the second frame alone, so rows
    never accumulate over runs; and the first save has left every other
    database file as it was. *)
Theorem save_data_last_write_wins df1 df2 database_filename files files1 :
  save_data df1 database_filename files = Ok files1 →
  save_data df2 database_filename files1 = save_data df2 database_filename files ∧
  delete database_filename files1 = delete database_filename files.
Proof.
  intros ->%save_data_Ok. split.
  - rewrite !save_data_eq. unfold create_engine.
    rewrite lookup_insert_eq. simpl. by rewrite !insert_insert_eq.
  - apply delete_insert_eq.
Qed.

Lemma save_data_last_write_wins_witness :
  save_data (to_frame [0] cleaned_category_id) "DisasterResponse.db"
    (<["DisasterResponse.db"%string :=
         <["disaster_messages"%string :=
             Relation (columns cleaned_duplicates)
                      (row_scalars <$> rows cleaned_duplicates)]> ∅]> ∅)
  = save_data (to_frame [0] cleaned_category_id) "DisasterResponse.db" ∅.
Proof.
  exact (proj1 (save_data_last_write_wins (to_frame [0; 2] cleaned_duplicates)
                  (to_frame [0] cleaned_category_id) "DisasterResponse.db" ∅ _
                  eq_refl)).
Defined.

(** * Properties of the orchestration *)

Lemma text_scalar_inj x y : text_scalar x = text_scalar y → x = y.
Proof. destruct x, y; simpl; congruence. Qed.

Lemma number_scalar_inj x y : number_scalar x = number_scalar y → x = y.
Proof. destruct x, y; simpl; congruence. Qed.

Lemma row_scalars_inj r1 r2 : row_scalars r1 = row_scalars r2 → r1 = r2.
Proof.
  destruct r1 as [i1 m1 o1 g1 v1], r2 as [i2 m2 o2 g2 v2]. unfold row_scalars. simpl.
  intros [= -> ->%text_scalar_inj ->%text_scalar_inj ->%text_scalar_inj Hv].
  f_equal. revert v2 Hv. induction v1 as [|x v1 IH]; intros [|y v2] Hv; try done.
  rewrite !fmap_cons in Hv. injection Hv as ->%number_scalar_inj Hv.
  f_equal. by apply IH.
Qed.

Lemma main_run d messages_csv categories_csv program mf cf dbf w :
  main d messages_csv categories_csv [program; mf; cf; dbf] w
  = match load_data messages_csv categories_csv mf cf with
    | Raise e => (World (w_stdout w ++ [loading_message mf cf]) (w_files w), Raise e)
    | Ok df =>
        match clean_data d df with
        | Raise e =>
            (World (w_stdout w ++ [loading_message mf cf; "Cleaning data..."%string])
                   (w_files w), Raise e)
        | Ok cleaned =>
            match save_data (to_frame (cleaned_index d df) cleaned) dbf (w_files w) with
            | Raise e =>
                (World (w_stdout w
                        ++ [loading_message mf cf; "Cleaning data..."%string;
                            saving_message dbf])
                       (w_files w), Raise e)
            | Ok files =>
                (World (w_stdout w
                        ++ [loading_message mf cf; "Cleaning data..."%string;
                            saving_message dbf;
                            "Cleaned data saved to database!"%string])
                       files, Ok tt)
            end
        end
    end.
Proof.
  cbv [main mbind io_bind print call call_on_files w_stdout w_files].
  destruct w as [out files].
  destruct (load_data messages_csv categories_csv mf cf) as [df|e]; [|done].
  destruct (clean_data d df) as [cleaned|e].
  - destruct (save_data (to_frame (cleaned_index d df) cleaned) dbf files);
      by rewrite <-!app_assoc.
  - by rewrite <-!app_assoc.
Qed.

(** X12. With any number of arguments other than three, [main] prints the
    usage text and nothing else, leaves the database files as they are and
    returns without raising. *)
Theorem main_usage d messages_csv categories_csv argv w :
  length argv ≠ 4%nat →
  main d messages_csv categories_csv argv w
  = (World (w_stdout w ++ [usage_message]) (w_files w), Ok tt).
Proof.
  intros Hlen. by destruct argv as [|? [|? [|? [|? [|? ?]]]]].
Qed.

Lemma main_usage_witness :
  length ["process_data.py"; "messages.csv"]%string ≠ 4%nat ∧
  main ObjectDtype sample_messages_csv sample_categories_csv
       ["process_data.py"; "messages.csv"]%string (World [] ∅)
  = (World [usage_message] ∅, Ok tt).
Proof.
  assert (length ["process_data.py"; "messages.csv"]%string ≠ 4%nat) as Hlen
    by discriminate.
  split; [exact Hlen|].
  exact (main_usage ObjectDtype sample_messages_csv sample_categories_csv
           ["process_data.py"; "messages.csv"]%string (World [] ∅) Hlen).
Defined.

(** X13. A run of [main] that raises has stopped in one of three places:
    in [load_data], after the loading line was printed; in [clean_data],
    after the cleaning line was printed; or in [save_data], after the
    saving line was printed.  In the first two cases nothing has been
    written: the database files are as before.  The line that reports
    success is not printed. *)
Theorem main_raises d messages_csv categories_csv argv w w' e :
  main d messages_csv categories_csv argv w = (w', Raise e) →
  ∃ program messages_filepath categories_filepath database_filepath,
    argv = [program; messages_filepath; categories_filepath; database_filepath] ∧
    ((load_data messages_csv categories_csv messages_filepath categories_filepath
      = Raise e ∧
      w_files w' = w_files w ∧
      w_stdout w'
      = w_stdout w ++ [loading_message messages_filepath categories_filepath]) ∨
     (∃ df,
        load_data messages_csv categories_csv messages_filepath categories_filepath
        = Ok df ∧
        clean_data d df = Raise e ∧
        w_files w' = w_files w ∧
        w_stdout w'
        = w_stdout w ++ [loading_message messages_filepath categories_filepath;
                         "Cleaning data..."%string]) ∨
     (∃ df cleaned,
        load_data messages_csv categories_csv messages_filepath categories_filepath
        = Ok df ∧
        clean_data d df = Ok cleaned ∧
        save_data (to_frame (cleaned_index d df) cleaned) database_filepath (w_files w)
        = Raise e ∧
        w_stdout w'
        = w_stdout w ++ [loading_message messages_filepath categories_filepath;
                         "Cleaning data..."%string;
                         saving_message database_filepath])).
Proof.
  destruct argv as [|program [|mf [|cf [|dbf [|? ?]]]]]; try done.
  rewrite main_run. intros Hmain. exists program, mf, cf, dbf. split; [done|].
  revert Hmain.
  destruct (load_data messages_csv categories_csv mf cf) as [df|e1] eqn:Hload.
  - destruct (clean_data d df) as [cleaned|e2] eqn:Hclean.
    + destruct (save_data (to_frame (cleaned_index d df) cleaned) dbf (w_files w))
        as [files|e3] eqn:Hsave; [done|].
      intros [= <- <-]. right. right. by exists df, cleaned.
    + intros [= <- <-]. right. left. by exists df.
  - intros [= <- <-]. by left.
Qed.

Lemma main_raises_witness :
  main ObjectDtype sample_messages_csv sample_categories_csv
       ["process_data.py"; "messages.csv"; "missing.csv"; "Out.db"]%string
       (World [] ∅)
  = (World [loading_message "messages.csv" "missing.csv"] ∅, Raise FileNotFoundError) ∧
  ∃ program messages_filepath categories_filepath database_filepath,
    ["process_data.py"; "messages.csv"; "missing.csv"; "Out.db"]%string
    = [program; messages_filepath; categories_filepath; database_filepath].
Proof.
  split; [reflexivity|].
  destruct (main_raises ObjectDtype sample_messages_csv sample_categories_csv
              ["process_data.py"; "messages.csv"; "missing.csv"; "Out.db"]%string
              (World [] ∅)
              (World [loading_message "messages.csv" "missing.csv"] ∅)
              FileNotFoundError eq_refl)
    as (program & mf & cf & dbf & Hargv & _).
  exists program, mf, cf, dbf. exact Hargv.
Defined.

(** X14. When the files load, the merged frame cleans and the cleaned
    frame is saved, [main] prints its four progress lines in order and
    returns, and the database file then holds the cleaned frame as its
    table [disaster_messages]: the labels of the frame as columns, one row
    per cleaned row with missing cells as [NULL], no row twice; its other
    tables and the other files are untouched. *)
Theorem main_saves_cleaned d messages_csv categories_csv
    program messages_filepath categories_filepath database_filepath
    df cleaned files' w :
  load_data messages_csv categories_csv messages_filepath categories_filepath = Ok df →
  clean_data d df = Ok cleaned →
  save_data (to_frame (cleaned_index d df) cleaned) database_filepath (w_files w)
  = Ok files' →
  main d messages_csv categories_csv
       [program; messages_filepath; categories_filepath; database_filepath] w
  = (World (w_stdout w
            ++ [loading_message messages_filepath categories_filepath;
                "Cleaning data..."%string;
                saving_message database_filepath;
                "Cleaned data saved to database!"%string])
           files',
     Ok tt) ∧
  files' = <[database_filepath :=
               <["disaster_messages"%string :=
                   Relation (columns cleaned) (row_scalars <$> rows cleaned)]>
                 (create_engine (w_files w) database_filepath)]> (w_files w) ∧
  NoDup (row_scalars <$> rows cleaned).
Proof.
  intros Hload Hclean Hsave. split; [|split].
  - by rewrite main_run, Hload, Hclean, Hsave.
  - by apply save_data_Ok in Hsave.
  - apply NoDup_fmap_2_strong.
    + intros r1 r2 _ _. apply row_scalars_inj.
    + apply clean_data_Ok in Hclean as (? & _ & _ & ->). apply NoDup_unmarked_from.
Qed.

Lemma main_saves_cleaned_witness :
  load_data sample_messages_csv sample_categories_csv "messages.csv" "categories.csv"
  = Ok (merge sample_messages sample_categories) ∧
  clean_data ObjectDtype (merge sample_messages sample_categories) = Ok sample_cleaned ∧
  NoDup (row_scalars <$> rows sample_cleaned).
Proof.
  split; [reflexivity|]. split; [reflexivity|].
  exact (proj2 (proj2 (main_saves_cleaned ObjectDtype sample_messages_csv
                         sample_categories_csv
                         "process_data.py" "messages.csv" "categories.csv"
                         "DisasterResponse.db"
                         (merge sample_messages sample_categories)
                         sample_cleaned _ (World [] ∅) eq_refl eq_refl eq_refl))).
Defined.

(** X16. A frame that [clean_data] returns cannot always be saved: when a
    category of row 0 has an empty name, or the name of a column of the
    messages table, the cleaned frame has a blank or a repeated label and
    [save_data] raises on it. *)
Theorem save_data_refuses_cleaned d df cleaned names index database_filename files :
  clean_data d df = Ok cleaned →
  derive_colnames (split_categories df) = Ok names →
  (EmptyString ∈ names ∨
   ∃ name, name ∈ names ∧ name ∈ ["id"; "message"; "original"; "genre"]%string) →
  save_data (to_frame index cleaned) database_filename files = Raise ArgumentError ∨
  save_data (to_frame index cleaned) database_filename files = Raise ValueError.
Proof.
  intros Hclean Hnames Hbad.
  apply clean_data_Ok in Hclean as (names' & Hnames' & _ & ->).
  assert (names' = names) as -> by congruence.
  apply save_data_refused. unfold to_frame. cbn [df_columns columns].
  destruct Hbad as [Hblank|(name & Hname & Hmsg)].
  - left. apply elem_of_app. by right.
  - right. intros Hnd. apply NoDup_app in Hnd as (_ & Hdisjoint & _).
    by apply (Hdisjoint name).
Qed.

Lemma save_data_refuses_cleaned_witness :
  clean_data ObjectDtype table_category_id = Ok cleaned_category_id ∧
  derive_colnames (split_categories table_category_id) = Ok ["id"; "b"]%string ∧
  (save_data (to_frame [0] cleaned_category_id) "DisasterResponse.db" ∅
   = Raise ArgumentError ∨
   save_data (to_frame [0] cleaned_category_id) "DisasterResponse.db" ∅
   = Raise ValueError).
Proof.
  split; [reflexivity|]. split; [reflexivity|].
  apply (save_data_refuses_cleaned ObjectDtype table_category_id cleaned_category_id
           ["id"; "b"]%string [0] "DisasterResponse.db" ∅ eq_refl eq_refl).
  right. exists "id"%string. split.
  - apply (list_elem_of_lookup_2 _ 0%nat). reflexivity.
  - apply (list_elem_of_lookup_2 _ 0%nat). reflexivity.
Defined.

(** * The cleaner on tables that are not well formed *)

(** X15. With text in [object] columns the converse of X5 holds:
    [clean_data] returns only on a well-formed table.  Row 0 exists and
    has a [categories] string, its names are pairwise different, and every
    row has a [categories] string with as many tokens as row 0, each empty
    or ending in a digit. *)
Theorem clean_data_object_only_well_formed df out :
  clean_data ObjectDtype df = Ok out →
  ∃ r0 s0,
    df !! 0%nat = Some r0 ∧ j_categories r0 = Some s0 ∧ NoDup (colnames_of s0) ∧
    Forall (λ r, ∃ s, j_categories r = Some s ∧
                      length (split ";" s) = length (split ";" s0) ∧
                      Forall (λ t, ∀ ch, last_char t = Some ch → is_digit ch = true)
                             (split ";" s)) df.
Proof.
  intros Hout.
  destruct (clean_data_Ok_names _ _ _ Hout) as (names & Hd & Hnd & _ & _).
  apply derive_colnames_Ok in Hd as (r0 & s0 & Hr0 & Hs0 & Hw & ->).
  exists r0, s0. do 3 (split; [done|]).
  apply clean_data_Ok in Hout as (? & _ & Hcell & _).
  apply Forall_lookup. intros i r Hr.
  destruct (j_categories r) as [s|] eqn:Hs.
  - destruct (string_row_cells df i r s Hr Hs) as [Hle Hcells].
    apply list_elem_of_lookup_2 in Hcells.
    exists s. split; [done|].
    assert (length (split ";" s) = length (split ";" s0)) as Hlen.
    { rewrite Hw.
      destruct (frame_width ";" (j_categories <$> df) - length (split ";" s))%nat
        as [|n] eqn:Hn; [lia|].
      assert (convert_cell ObjectDtype PyNone = Ok (value_of ObjectDtype PyNone))
        as Hbad; [|done].
      apply (Hcell _ PyNone Hcells). simpl. set_solver. }
    split; [done|]. apply Forall_forall. intros t Ht ch Hch.
    assert (convert_cell ObjectDtype (Str t) = Ok (value_of ObjectDtype (Str t)))
      as Hok.
    { apply (Hcell _ (Str t) Hcells), elem_of_app. left.
      by apply list_elem_of_fmap_2. }
    apply convert_cell_Ok in Hok as [_ Hdigit]. by apply Hdigit.
  - assert (split_categories df !! i
            = Some (replicate (frame_width ";" (j_categories <$> df)) NaN)) as Hcells.
    { by rewrite split_categories_lookup, Hr; simpl; rewrite Hs. }
    apply list_elem_of_lookup_2 in Hcells.
    assert (convert_cell ObjectDtype NaN = Ok (value_of ObjectDtype NaN))
      as Hbad; [|done].
    apply (Hcell _ NaN Hcells).
    pose proof (split_length_pos ";" s0) as Hpos. rewrite Hw in Hpos.
    destruct (frame_width ";" (j_categories <$> df)) as [|n]; [lia|].
    simpl. set_solver.
Qed.

Lemma clean_data_object_only_well_formed_witness :
  clean_data ObjectDtype table_duplicates = Ok cleaned_duplicates ∧
  ∃ r0 s0,
    table_duplicates !! 0%nat = Some r0 ∧ j_categories r0 = Some s0 ∧
    NoDup (colnames_of s0) ∧
    Forall (λ r, ∃ s, j_categories r = Some s ∧
                      length (split ";" s) = length (split ";" s0) ∧
                      Forall (λ t, ∀ ch, last_char t = Some ch → is_digit ch = true)
                             (split ";" s)) table_duplicates.
Proof.
  split; [reflexivity|].
  exact (clean_data_object_only_well_formed table_duplicates cleaned_duplicates
           eq_refl).
Defined.
